(** * ds4003-callbacks: the data pipeline of [app.py]

    A shallow embedding of the pure part of the dashboard: the cell
    normaliser [value_to_int] and the loop that applies it to every year
    column, the random default year window, and the row/column selection and
    reshaping done by the [update_graph] callback.

    Modelling choices.
    - A cell of the table is a Python object: an [int], a [float], a [bool]
      or a [str] (what [pandas.read_csv] puts in a column and hands to
      [Series.apply] element by element).  Integers are unbounded ([Z]);
      floats are IEEE binary64 values ([spec_float]).
    - A [str] is a [string] read as a text over the code points 0..255, one
      [ascii] per code point.
    - A Python exception is a value of [exn]; a computation that may raise
      returns a [result].
    - A [DataFrame] is the ordered list of its columns, each a label with its
      cells, labels being unique as [read_csv] makes them.  A cell of the
      table is kept as the Python object it holds; the dtype under which
      pandas stores a whole column is modelled where the callback reshapes
      the table ([melt], [to_numeric]).
    - [years] is a NumPy array of int64: the offsets the callback computes
      from it are 64-bit integers, which wrap around, and a Python integer
      that does not fit in 64 bits cannot be combined with them.
    - [math.floor(a / 3)] on the lengths at hand is integer division. *)

From Stdlib Require Import ZArith List String Ascii Bool Lia SpecFloat.
From Stdlib Require Import Permutation.
Import ListNotations.

Open Scope string_scope.
Open Scope list_scope.
Open Scope Z_scope.

(** ** Python values and exceptions *)

Inductive pyval : Type :=
| PyInt (z : Z)
| PyFloat (f : spec_float)
| PyBool (b : bool)
| PyStr (s : string).

Inductive exn : Type :=
| TypeError | ValueError | IndexError | KeyError | OverflowError.

Inductive result (A : Type) : Type :=
| Ok (a : A)
| Raise (e : exn).

Arguments Ok {A} a.
Arguments Raise {A} e.

Definition bind {A B : Type} (r : result A) (k : A -> result B) : result B :=
  match r with
  | Ok a => k a
  | Raise e => Raise e
  end.

Notation "x <- r ;; k" := (bind r (fun x => k))
  (at level 61, r at next level, right associativity).

Definition is_ok {A : Type} (r : result A) : bool :=
  match r with Ok _ => true | Raise _ => false end.

(** [[f(x) for x in l]], stopping at the first exception. *)
Fixpoint mapM {A B : Type} (f : A -> result B) (l : list A) : result (list B) :=
  match l with
  | [] => Ok []
  | a :: l' => b <- f a ;; bs <- mapM f l' ;; Ok (b :: bs)
  end.

(** ** The [str] methods the normaliser calls *)

(** [c in x] for a one-character [c]. *)
Fixpoint contains (c : ascii) (x : string) : bool :=
  match x with
  | EmptyString => false
  | String d x' => Ascii.eqb d c || contains c x'
  end.

(** [x.replace(c, '')] for a one-character [c]. *)
Fixpoint remove_char (c : ascii) (x : string) : string :=
  match x with
  | EmptyString => EmptyString
  | String d x' =>
      if Ascii.eqb d c then remove_char c x' else String d (remove_char c x')
  end.

(** [x.split(c)] for a one-character [c]: the fields between the
    occurrences of [c], of which there is always at least one. *)
Fixpoint split (c : ascii) (x : string) : list string :=
  match x with
  | EmptyString => [EmptyString]
  | String d x' =>
      if Ascii.eqb d c then EmptyString :: split c x'
      else match split c x' with
           | [] => [String d EmptyString]
           | w :: ws => String d w :: ws
           end
  end.

(** [l[i]] on a list, with Python's negative indices. *)
Definition py_index {A : Type} (l : list A) (i : Z) : result A :=
  let n := Z.of_nat (List.length l) in
  let j := if i <? 0 then i + n else i in
  if (j <? 0) || (n <=? j) then Raise IndexError
  else match nth_error l (Z.to_nat j) with
       | Some a => Ok a
       | None => Raise IndexError
       end.

(** ** [int(str)]

    CPython reads a base-10 literal: blanks, an optional sign, digits in
    which single underscores may separate digits, blanks.  A literal of
    more than [int_max_str_digits] digits is refused. *)

(** The blanks [int] skips: tab to carriage return, the space, and the two
    blanks above 127 (next line, no-break space). *)
Definition is_space (c : ascii) : bool :=
  let n := N_of_ascii c in
  (((9 <=? n) && (n <=? 13)) || (n =? 32) || (n =? 133) || (n =? 160))%N.

Definition is_digit (c : ascii) : bool :=
  let n := N_of_ascii c in ((48 <=? n) && (n <=? 57))%N.

Definition digit_val (c : ascii) : Z := Z.of_N (N_of_ascii c) - 48.

Definition int_max_str_digits : nat := 4300.

Fixpoint lstrip (x : string) : string :=
  match x with
  | EmptyString => EmptyString
  | String c x' => if is_space c then lstrip x' else x
  end.

Fixpoint all_space (x : string) : bool :=
  match x with
  | EmptyString => true
  | String c x' => is_space c && all_space x'
  end.

(** The digit scan: the value read so far, the number of digits, and the
    text left at the first character that is neither a digit nor an
    underscore.  [prev] tells whether the last character was an underscore:
    two in a row, or one at the end of the scan, is an error. *)
Fixpoint scan_digits (x : string) (prev : bool) (acc : Z) (digits : nat)
  : option (Z * nat * string) :=
  match x with
  | EmptyString => if prev then None else Some (acc, digits, EmptyString)
  | String c x' =>
      if is_digit c then scan_digits x' false (10 * acc + digit_val c) (S digits)
      else if Ascii.eqb c "_" then
        if prev then None else scan_digits x' true acc digits
      else if prev then None else Some (acc, digits, x)
  end.

Definition split_sign (x : string) : bool * string :=
  match x with
  | String c x' =>
      if Ascii.eqb c "-" then (true, x')
      else if Ascii.eqb c "+" then (false, x')
      else (false, x)
  | EmptyString => (false, x)
  end.

Definition leading_underscore (x : string) : bool :=
  match x with
  | String c _ => Ascii.eqb c "_"
  | EmptyString => false
  end.

Definition py_int (x : string) : result Z :=
  let (neg, body) := split_sign (lstrip x) in
  if leading_underscore body then Raise ValueError
  else
    match scan_digits body false 0 0 with
    | None => Raise ValueError
    | Some (v, digits, rest) =>
        if (digits =? 0)%nat then Raise ValueError
        else if (int_max_str_digits <? digits)%nat then Raise ValueError
        else if all_space rest then Ok (if neg then - v else v)
        else Raise ValueError
    end.

(** ** The normaliser (app.py, lines 20-34) *)

(** The literal [1000.0]. *)
Definition float_1000 : spec_float := S754_finite false 8796093022208000 (-43).

Definition value_to_int (x : pyval) : result pyval :=
  match x with
  | PyInt _ => Ok x
  | PyFloat _ | PyBool _ => Raise TypeError     (* ['k' in x] on a non-iterable *)
  | PyStr s =>
      if contains "k" s then
        if contains "." s then
          let s' := remove_char "k" s in
          let vals := split "." s' in
          v0 <- py_index vals 0 ;;
          i <- py_int v0 ;;
          v1 <- py_index vals 1 ;;
          f <- py_int v1 ;;
          Ok (PyInt (i * 1000 + f * 100))
        else if (1 <? String.length s)%nat then
          i <- py_int (remove_char "k" s) ;;
          Ok (PyInt (i * 1000))
        else Ok (PyFloat float_1000)
      else
        i <- py_int s ;;
        Ok (PyInt i)
  end.

(** [v == z] for a float [v] and an integer [z]: Python compares the two
    numbers exactly. *)
Definition float_eq_int (f : spec_float) (z : Z) : bool :=
  match f with
  | S754_zero _ => z =? 0
  | S754_finite s m e =>
      let v := cond_Zopp s (Zpos m) in
      if 0 <=? e then v * 2 ^ e =? z else v =? z * 2 ^ (- e)
  | S754_infinity _ | S754_nan => false
  end.

Definition py_eq_int (v : pyval) (z : Z) : bool :=
  match v with
  | PyInt y => y =? z
  | PyFloat f => float_eq_int f z
  | PyBool b => (if b then 1 else 0) =? z
  | PyStr _ => false
  end.

(** ** The table *)

Definition column : Type := string * list pyval.
Definition DataFrame : Type := list column.

(** [df.columns] *)
Definition columns (df : DataFrame) : list string := map fst df.

(** [df[name]] *)
Fixpoint getitem (df : DataFrame) (name : string) : result (list pyval) :=
  match df with
  | [] => Raise KeyError
  | (l, vs) :: df' => if String.eqb l name then Ok vs else getitem df' name
  end.

(** [series.apply(value_to_int)] on one column. *)
Definition apply_value_to_int (c : column) : result column :=
  vs <- mapM value_to_int (snd c) ;; Ok (fst c, vs).

(** Lines 33-34: [for col in df.columns[1:]: df[col] = df[col].apply(value_to_int)].
    The labels being unique, the assignment by label rewrites the column in
    place; the first column is left as it is. *)
Definition normalize (df : DataFrame) : result DataFrame :=
  match df with
  | [] => Ok []
  | c0 :: cols => cols' <- mapM apply_value_to_int cols ;; Ok (c0 :: cols')
  end.

(** ** The year axis and the default window (lines 58-70) *)

(** One element of [.astype(int)]: [int] of the label, which must fit in
    64 bits. *)
Definition astype_int (l : string) : result Z :=
  y <- py_int l ;;
  if (- 2 ^ 63 <=? y) && (y <? 2 ^ 63) then Ok y else Raise OverflowError.

(** Line 58: [years = (df.columns[1:].values).astype(int)].  NumPy makes
    no array whose size in bytes does not fit in a signed 64-bit integer:
    an array of int64 has fewer than [2 ^ 60] elements. *)
Definition years_of (df : DataFrame) : result (list Z) :=
  let labels := tl (columns df) in
  if 2 ^ 60 <=? Z.of_nat (List.length labels) then Raise ValueError
  else mapM astype_int labels.

(** [len(l)] *)
Definition len {A : Type} (l : list A) : Z := Z.of_nat (List.length l).

(** The upper bound handed to [random.randint(0, _)] on line 59; the draw
    is any integer from 0 to that bound, both included. *)
Definition start_bound (years : list Z) : Z := (2 * len years) / 3.

(** Line 60. *)
Definition end_of (years : list Z) (start : Z) : Z := start + len years / 3.

Record slider : Type := mkSlider {
  slider_min : Z;
  slider_max : Z;
  slider_value : Z * Z
}.

(** Lines 63-74, for the value [start] that [randint] returned: the
    arguments of the [RangeSlider], evaluated in the order written. *)
Definition slider_div (years : list Z) (start : Z) : result slider :=
  let end_ := end_of years start in
  lo <- py_index years 0 ;;
  hi <- py_index years (len years - 1) ;;
  a <- py_index years start ;;
  b <- py_index years end_ ;;
  Ok (mkSlider lo hi (a, b)).

(** ** Selection (update_graph, lines 142-148) *)

(** One element of [.isin(selected_countries)], the selection holding
    strings: an object that is not a [str] equals none of them. *)
Definition isin (selected : list string) (v : pyval) : bool :=
  match v with
  | PyStr s => existsb (String.eqb s) selected
  | _ => false
  end.

Fixpoint filter_mask {A : Type} (mask : list bool) (l : list A) : list A :=
  match mask, l with
  | b :: mask', a :: l' =>
      if b then a :: filter_mask mask' l' else filter_mask mask' l'
  | _, _ => []
  end.

(** [df.loc[mask]]: the rows at which the boolean mask holds. *)
Definition loc (df : DataFrame) (mask : list bool) : DataFrame :=
  map (fun c => (fst c, filter_mask mask (snd c))) df.

(** A bound of a slice with step 1, brought into [0, n] as Python does. *)
Definition slice_bound (n i : Z) : Z :=
  if i <? 0 then Z.max 0 (i + n) else Z.min i n.

(** [l[lo:hi]] *)
Definition py_slice {A : Type} (l : list A) (lo hi : Z) : list A :=
  let a := slice_bound (len l) lo in
  let b := slice_bound (len l) hi in
  firstn (Z.to_nat (b - a)) (skipn (Z.to_nat a) l).

Definition mem (l : string) (labels : list string) : bool :=
  existsb (String.eqb l) labels.

(** [df.drop(labels, axis=1)], the labels being labels of [df]. *)
Definition drop (df : DataFrame) (labels : list string) : DataFrame :=
  filter (fun c => negb (mem (fst c) labels)) df.

(** *** Arithmetic on [numpy.int64]

    An element of [years] is an int64.  An operation between two int64
    values, or between an int64 and a Python integer, is done in 64 bits:
    the Python integer must fit in an int64 (NumPy raises OverflowError
    otherwise), and the result wraps around. *)
Definition in_int64 (z : Z) : bool := (- 2 ^ 63 <=? z) && (z <? 2 ^ 63).

Definition wrap64 (z : Z) : Z := (z + 2 ^ 63) mod 2 ^ 64 - 2 ^ 63.

(** [i - y] for a Python integer [i] and an int64 [y]. *)
Definition int64_rsub (i y : Z) : result Z :=
  if in_int64 i then Ok (wrap64 (i - y)) else Raise OverflowError.

(** [x - y] for two int64, and [x + i] for an int64 [x] and a small literal
    [i]. *)
Definition int64_sub (x y : Z) : Z := wrap64 (x - y).
Definition int64_add (x i : Z) : Z := wrap64 (x + i).

(** Lines 142-148: the value of [mini_df] when the callback reaches
    [pd.melt], [df] and [years] being the globals of the module.  The
    selected years are Python integers; [small] and [big] are int64. *)
Definition mini_df (df : DataFrame) (years : list Z)
    (selected_countries : list string) (selected_years : list Z)
  : result DataFrame :=
  country <- getitem df "country" ;;
  let mini := loc df (map (isin selected_countries) country) in
  s <- py_index selected_years 0 ;;
  y0 <- py_index years 0 ;;
  small <- int64_rsub s y0 ;;
  e <- py_index selected_years 1 ;;
  y0' <- py_index years 0 ;;
  big <- int64_rsub e y0' ;;
  let mini := drop mini (py_slice (columns mini) 1 (int64_add small 1)) in
  let mini :=
    drop mini (py_slice (columns mini) (int64_add (int64_sub big small) 2)
                        (len (columns mini) + 1)) in
  Ok mini.

(** A selected year [z] that the 64-bit offsets can take, [y0] being the
    first year of the axis: [z] fits in an int64 and lies within [2 ^ 61]
    of [y0], so that none of [small], [big], [small+1] and [big-small+2]
    overflows. *)
Definition within_reach (y0 z : Z) : Prop :=
  - 2 ^ 63 <= z < 2 ^ 63 /\ - 2 ^ 61 <= z - y0 <= 2 ^ 61.

(** ** Reshaping (update_graph, lines 151-156) *)

Record tidy : Type := mkTidy {
  country : pyval;
  year : pyval;
  gdp_pcap : pyval
}.

(** *** The dtype of a column

    pandas stores a column of numbers under one dtype: int64 when every
    cell is an integer that fits, uint64 when every cell is a non-negative
    integer below [2 ^ 64], float64 when the cells are floats and integers
    of 64 bits that fit one of the two integer dtypes together; any other
    column holds the Python objects themselves. *)
Inductive dtype : Type := Int64 | UInt64 | Float64 | Object.

Definition is_int64 (v : pyval) : bool :=
  match v with PyInt z => in_int64 z | _ => false end.

Definition is_uint64 (v : pyval) : bool :=
  match v with PyInt z => (0 <=? z) && (z <? 2 ^ 64) | _ => false end.

Definition is_number64 (v : pyval) : bool :=
  match v with
  | PyInt _ => is_int64 v || is_uint64 v
  | PyFloat _ => true
  | PyBool _ | PyStr _ => false
  end.

(** An integer below zero, and one above the int64 range: a column with
    both fits neither integer dtype. *)
Definition is_negative (v : pyval) : bool :=
  match v with PyInt z => z <? 0 | _ => false end.

Definition is_above_int64 (v : pyval) : bool :=
  match v with PyInt z => 2 ^ 63 <=? z | _ => false end.

Definition dtype_of (vs : list pyval) : dtype :=
  if forallb is_int64 vs then Int64
  else if forallb is_uint64 vs then UInt64
  else if forallb is_number64 vs
          && negb (existsb is_negative vs && existsb is_above_int64 vs)
       then Float64
  else Object.

Definition dtype_eqb (d d' : dtype) : bool :=
  match d, d' with
  | Int64, Int64 | UInt64, UInt64 | Float64, Float64 | Object, Object => true
  | _, _ => false
  end.

(** The dtype that holds columns of the dtypes [ds] together: their own
    when they have the same one, object when one of them is object, and
    float64 for any other mix of numbers. *)
Definition common_dtype (ds : list dtype) : dtype :=
  if forallb (dtype_eqb Int64) ds then Int64
  else if forallb (dtype_eqb UInt64) ds then UInt64
  else if existsb (dtype_eqb Object) ds then Object
  else Float64.

(** The float64 nearest to an integer, ties to even. *)
Definition float_of_int (z : Z) : spec_float := binary_normalize 53 1024 z 0 false.

(** A cell stored under the dtype [d]: an integer in a float64 column is
    the nearest float. *)
Definition astype (d : dtype) (v : pyval) : pyval :=
  match d, v with
  | Float64, PyInt z => PyFloat (float_of_int z)
  | _, _ => v
  end.

(** The dtype of the column [l] of the table [df].  A selection of rows
    of the table keeps the dtype of each column, whatever cells are left:
    the frames cut out of [df] take the dtypes of their columns from
    there. *)
Definition column_dtype (df : DataFrame) (l : string) : dtype :=
  match getitem df l with
  | Ok vs => dtype_of vs
  | Raise _ => Object
  end.

(** The columns [cols] with their cells stored under the dtype [d], and
    under the dtype common to them, [dtypes] giving the dtype of each. *)
Definition upcast_to (d : dtype) (cols : list column) : list column :=
  map (fun c => (fst c, map (astype d) (snd c))) cols.

Definition upcast (dtypes : string -> dtype) (cols : list column) : list column :=
  upcast_to (common_dtype (map (fun c => dtypes (fst c)) cols)) cols.

(** [pd.melt(df, id_vars=['country'], var_name='year')], for a frame [df]
    whose columns have the dtypes [dtypes]: the identifier column is taken
    out, and every other column, in the order of the frame, gives one
    record per row.  The values of these columns make one column, under
    the dtype common to them. *)
Definition melt_column (ids : list pyval) (c : column)
  : list (pyval * string * pyval) :=
  map (fun iv => (fst iv, fst c, snd iv)) (combine ids (snd c)).

Definition melt (dtypes : string -> dtype) (df : DataFrame)
  : result (list (pyval * string * pyval)) :=
  ids <- getitem df "country" ;;
  let value_vars := filter (fun c => negb (String.eqb (fst c) "country")) df in
  Ok (flat_map (melt_column ids) (upcast dtypes value_vars)).

Section Reshape.

(** What [pd.to_numeric(_, errors='coerce')] makes of an element that is
    not a number already: pandas' own reading of a text. *)
Variable coerce : pyval -> pyval.

Definition read_numeric (v : pyval) : pyval :=
  match v with
  | PyInt _ | PyFloat _ => v
  | PyBool _ | PyStr _ => coerce v
  end.

(** The dtype of a column of numbers read by [to_numeric]: an integer
    dtype when they are integers that fit one, float64 otherwise. *)
Definition numeric_dtype (ws : list pyval) : dtype :=
  match dtype_of ws with
  | Int64 => Int64
  | UInt64 => UInt64
  | Float64 | Object => Float64
  end.

(** [pd.to_numeric(column, errors='coerce')]: every element is read as a
    number, and the numbers are stored under one dtype. *)
Definition to_numeric (vs : list pyval) : list pyval :=
  let ws := map read_numeric vs in
  map (astype (numeric_dtype ws)) ws.

(** Lines 152-156: the [year] and [value] columns through [to_numeric],
    and [value] renamed. *)
Definition tidy_frame (melted : list (pyval * string * pyval)) : list tidy :=
  let countries := map (fun r => fst (fst r)) melted in
  let years := to_numeric (map (fun r => PyStr (snd (fst r))) melted) in
  let values := to_numeric (map snd melted) in
  map (fun r => mkTidy (fst r) (fst (snd r)) (snd (snd r)))
      (combine countries (combine years values)).

(** The callback, up to the data frame it hands to [px.line]. *)
Definition update_graph (df : DataFrame) (years : list Z)
    (selected_countries : list string) (selected_years : list Z)
  : result (list tidy) :=
  mini <- mini_df df years selected_countries selected_years ;;
  melted <- melt (column_dtype df) mini ;;
  Ok (tidy_frame melted).

End Reshape.

(** A reading of texts that knows the integer literals of [int] and turns
    everything else into NaN; it stands for pandas' in the examples. *)
Definition coerce_int_literals (v : pyval) : pyval :=
  match v with
  | PyStr s => match py_int s with Ok z => PyInt z | Raise _ => PyFloat S754_nan end
  | _ => PyFloat S754_nan
  end.

(** ** Worked tables *)

(** The table of the end-to-end scenario, as read from the file: a column
    with a suffixed cell comes as texts, the others as integers. *)
Definition scenario_raw : DataFrame :=
  [ ("country", [PyStr "Andorra"; PyStr "Zimbabwe"]);
    ("2000", [PyInt 1000; PyInt 500]);
    ("2001", [PyStr "1100"; PyStr "1.5k"]);
    ("2002", [PyInt 1200; PyInt 600]) ].

Definition scenario_df : DataFrame :=
  [ ("country", [PyStr "Andorra"; PyStr "Zimbabwe"]);
    ("2000", [PyInt 1000; PyInt 500]);
    ("2001", [PyInt 1100; PyInt 1500]);
    ("2002", [PyInt 1200; PyInt 600]) ].

(** ** Decimal texts *)

(** The number a text of digits writes, after the digits read into [acc]. *)
Fixpoint digits_value (acc : Z) (x : string) : Z :=
  match x with
  | EmptyString => acc
  | String c x' => digits_value (10 * acc + digit_val c) x'
  end.

Fixpoint all_digits (x : string) : bool :=
  match x with
  | EmptyString => true
  | String c x' => is_digit c && all_digits x'
  end.

(** A non-empty text of digits, short enough for [int]. *)
Definition decimal (x : string) : Prop :=
  all_digits x = true /\ x <> EmptyString /\
  (String.length x <= int_max_str_digits)%nat.

(** ** Ranges of years and sets of countries *)

(** The [n] consecutive integers from [a] on. *)
Fixpoint Zseq (a : Z) (n : nat) : list Z :=
  match n with
  | O => []
  | S n' => a :: Zseq (a + 1) n'
  end.

(** The year axis of the data model: consecutive ascending years. *)
Definition contiguous (ys : list Z) : Prop :=
  ys = Zseq (hd 0 ys) (List.length ys).

Definition in_range (s e y : Z) : bool := (s <=? y) && (y <=? e).

(** Whether the name [c] is a key of the table, [keys] being the cells of
    the country column. *)
Definition is_key (keys : list pyval) (c : string) : bool :=
  existsb (fun k => match k with PyStr s => String.eqb s c | _ => false end) keys.

(** The countries of the selection [C] that are keys of the table, each
    once: the set [C ∩ table.keys()]. *)
Definition selected_keys (C : list string) (keys : list pyval) : list string :=
  nodup string_dec (filter (is_key keys) C).

(** Every column has one cell per row. *)
Definition rectangular (df : DataFrame) : Prop :=
  forall c c', In c df -> In c' df -> List.length (snd c) = List.length (snd c').

(** The endpoint [y] brought into the bounds [lo..hi], as the spec words
    the clamping policy. *)
Definition clamp (lo hi y : Z) : Z := Z.max lo (Z.min hi y).

(** A table of five years, for selections that leave its bounds. *)
Definition five_years_df : DataFrame :=
  [ ("country", [PyStr "Andorra"]);
    ("2000", [PyInt 1]); ("2001", [PyInt 2]); ("2002", [PyInt 3]);
    ("2003", [PyInt 4]); ("2004", [PyInt 5]) ].

(** A table with a cell that is the bare suffix, as read from the file and
    as the normaliser leaves it. *)
Definition bare_k_raw : DataFrame :=
  [ ("country", [PyStr "Andorra"]); ("2000", [PyInt 900]); ("2001", [PyStr "k"]) ].

Definition bare_k_df : DataFrame :=
  [ ("country", [PyStr "Andorra"]); ("2000", [PyInt 900]);
    ("2001", [PyFloat float_1000]) ].

(** A cell that holds an [int]. *)
Definition is_int (v : pyval) : bool :=
  match v with PyInt _ => true | _ => false end.

(** The cells of the year columns. *)
Definition year_cells (df : DataFrame) : list pyval := flat_map snd (tl df).

(** ** The grammar of the cells

    The texts [int] accepts, told as a grammar: blanks, an optional sign,
    groups of digits joined by single underscores, blanks. *)

(** [digit_groups x n]: [x] is made of [n] digits, with single underscores
    between digits only. *)
Inductive digit_groups : string -> nat -> Prop :=
| dg_last c :
    is_digit c = true -> digit_groups (String c "") 1
| dg_digit c x n :
    is_digit c = true -> digit_groups x n -> digit_groups (String c x) (S n)
| dg_under c x n :
    is_digit c = true -> digit_groups x n ->
    digit_groups (String c (String "_" x)) (S n).

(** A text that stops the scan: nothing, or a character that is neither a
    digit nor an underscore. *)
Definition stops_scan (r : string) : Prop :=
  match r with
  | EmptyString => True
  | String c _ => is_digit c = false /\ Ascii.eqb c "_" = false
  end.

Definition sign (x : string) : Prop :=
  x = ""%string \/ x = "+"%string \/ x = "-"%string.

Definition int_literal (x : string) : Prop :=
  exists l sg body r n,
    x = (l ++ sg ++ body ++ r)%string /\
    all_space l = true /\ sign sg /\
    digit_groups body n /\ (n <= int_max_str_digits)%nat /\
    all_space r = true.



(** The float 2.5, and a table read from a file whose one year column
    holds numbers with a point, which [read_csv] hands over as floats. *)
Definition float_2_5 : spec_float := S754_finite false 5629499534213120 (-51).

Definition float_raw : DataFrame :=
  [ ("country", [PyStr "Andorra"; PyStr "Zimbabwe"]);
    ("2000", [PyFloat float_2_5; PyFloat float_1000]) ].

(** ** The first figure (lines 43, 85-97)

    The names [sample(5)] drew are [starting_countries] and the integer
    [randint] returned is [start]; the sampled cells are taken to be
    strings, as the country names are. *)

(** Lines 85-89: the same selection as the callback's, by the positions
    [start] and [end] instead of by years. *)
Definition initial_mini_df (df : DataFrame) (starting_countries : list string)
    (start end_ : Z) : result DataFrame :=
  country <- getitem df "country" ;;
  let mini := loc df (map (isin starting_countries) country) in
  let mini := drop mini (py_slice (columns mini) 1 (start + 1)) in
  let mini :=
    drop mini (py_slice (columns mini) (end_ - start + 2) (len (columns mini) + 1)) in
  Ok mini.

(** Lines 85-97: the data frame of the first figure. *)
Definition initial_melted_df (coerce : pyval -> pyval) (df : DataFrame)
    (starting_countries : list string) (start end_ : Z) : result (list tidy) :=
  mini <- initial_mini_df df starting_countries start end_ ;;
  melted <- melt (column_dtype df) mini ;;
  Ok (tidy_frame coerce melted).

(** Line 43, [countries.sample(5)]: sampling without replacement raises a
    ValueError when the column has fewer than five cells; otherwise it
    returns five of them, the ones named by [starting_countries]. *)
Definition sample_5 (countries : list pyval) (starting_countries : list string)
  : result (list string) :=
  if len countries <? 5 then Raise ValueError else Ok starting_countries.

(** ** The marks of the slider (line 71) *)

(** [range(a, b, step)] for a positive [step]. *)
Definition py_range (a b step : Z) : list Z :=
  map (fun k => a + step * Z.of_nat k)
      (seq 0 (Z.to_nat ((b - a + step - 1) / step))).

Definition digit_char (d : Z) : ascii := ascii_of_N (Z.to_N (48 + d)).

(** The digits of [n >= 0] put before [acc], the last digit first; [fuel]
    bounds the number of digits. *)
Fixpoint digits_of (fuel : nat) (n : Z) (acc : string) : string :=
  match fuel with
  | O => acc
  | S fuel' =>
      let acc' := String (digit_char (n mod 10)) acc in
      if n <? 10 then acc' else digits_of fuel' (n / 10) acc'
  end.

(** ['{}'.format(i)] for an integer [i]: its decimal writing, with a minus
    sign when negative.  A number has no more decimal digits than binary
    ones, which gives the fuel. *)
Definition format_int (z : Z) : string :=
  let n := Z.abs z in
  let ds := digits_of (S (Z.to_nat (Z.log2 n))) n EmptyString in
  if z <? 0 then String "-" ds else ds.

(** Line 71: [{i: '{}'.format(i) for i in range(years[0], years[len(years)-1], 25)}],
    the keys in the order of the range. *)
Definition slider_marks (years : list Z) : result (list (Z * string)) :=
  lo <- py_index years 0 ;;
  hi <- py_index years (len years - 1) ;;
  Ok (map (fun i => (i, format_int i)) (py_range lo hi 25)).

(** ** The start of the module (lines 33-97) *)

Record app_state : Type := mkApp {
  app_df : DataFrame;
  app_years : list Z;
  app_slider : slider;
  app_marks : list (Z * string);
  app_figure : list tidy
}.

(** The module from the cleaning loop to the first figure, in the order
    of the file: the table is normalised, the country column is read and
    sampled for the dropdown, the years are read off the labels, the
    slider is built with its marks and the first figure is drawn. *)
Definition app_start (coerce : pyval -> pyval) (raw : DataFrame)
    (starting_countries : list string) (start : Z) : result app_state :=
  df <- normalize raw ;;
  countries <- getitem df "country" ;;
  starting <- sample_5 countries starting_countries ;;
  years <- years_of df ;;
  sl <- slider_div years start ;;
  marks <- slider_marks years ;;
  fig <- initial_melted_df coerce df starting start (end_of years start) ;;
  Ok (mkApp df years sl marks fig).

(** A table of six countries and four years, as read from the file. *)
Definition six_countries_raw : DataFrame :=
  [ ("country", [PyStr "Andorra"; PyStr "Belize"; PyStr "Chad"; PyStr "Denmark";
                 PyStr "Egypt"; PyStr "Fiji"]);
    ("1998", [PyInt 100; PyInt 200; PyInt 300; PyInt 400; PyInt 500; PyInt 600]);
    ("1999", [PyStr "1.1k"; PyStr "210"; PyStr "k"; PyStr "4k"; PyStr "510";
              PyStr "610"]);
    ("2000", [PyInt 120; PyInt 220; PyInt 320; PyInt 420; PyInt 520; PyInt 620]);
    ("2001", [PyInt 130; PyInt 230; PyInt 330; PyInt 430; PyInt 530; PyInt 630]) ].

(** The characters an integer literal is made of. *)
Definition literal_char (c : ascii) : bool :=
  is_digit c || is_space c || Ascii.eqb c "+" || Ascii.eqb c "-" || Ascii.eqb c "_".

Fixpoint all_chars (p : ascii -> bool) (x : string) : bool :=
  match x with
  | EmptyString => true
  | String c x' => p c && all_chars p x'
  end.

(** * Properties *)

(** ** Worked examples *)

Example py_int_examples :
  py_int " -1_000 " = Ok (-1000) /\ py_int "1__0" = Raise ValueError /\
  py_int "1_" = Raise ValueError /\ py_int "_1" = Raise ValueError /\
  py_int "" = Raise ValueError /\ py_int "+" = Raise ValueError /\
  py_int "007" = Ok 7 /\ py_int "1 2" = Raise ValueError /\
  py_int "- 1" = Raise ValueError /\ py_int "2.9" = Raise ValueError.
Proof. repeat split. Qed.

Example value_to_int_examples :
  value_to_int (PyStr "10.5k") = Ok (PyInt 10500) /\
  value_to_int (PyStr "-1.5k") = Ok (PyInt (-500)) /\
  value_to_int (PyStr "1.5.7k") = Ok (PyInt 1500) /\
  value_to_int (PyStr ".5k") = Raise ValueError /\
  value_to_int (PyStr "kk") = Raise ValueError /\
  value_to_int (PyStr "5.2M") = Raise ValueError /\
  value_to_int (PyBool true) = Raise TypeError.
Proof. repeat split. Qed.

Example float_1000_value :
  binary_normalize 53 1024 1000 0 false = float_1000 /\
  float_eq_int float_1000 1000 = true.
Proof. split; reflexivity. Qed.

Example py_slice_examples :
  py_slice [0; 1; 2; 3; 4] 1 3 = [1; 2] /\
  py_slice [0; 1; 2; 3; 4] 1 (-1) = [1; 2; 3] /\
  py_slice [0; 1; 2; 3; 4] 1 0 = [] /\
  py_slice [0; 1; 2; 3; 4] 3 9 = [3; 4] /\
  py_slice [0; 1; 2; 3; 4] (-1) 6 = [4] /\
  py_slice [0; 1; 2; 3; 4] 7 9 = [].
Proof. repeat split. Qed.

Example scenario_normalize : normalize scenario_raw = Ok scenario_df.
Proof. reflexivity. Qed.

Example scenario_update :
  update_graph coerce_int_literals scenario_df [2000; 2001; 2002]
               ["Andorra"; "Zimbabwe"] [2000; 2001]
  = Ok [ mkTidy (PyStr "Andorra") (PyInt 2000) (PyInt 1000);
         mkTidy (PyStr "Zimbabwe") (PyInt 2000) (PyInt 500);
         mkTidy (PyStr "Andorra") (PyInt 2001) (PyInt 1100);
         mkTidy (PyStr "Zimbabwe") (PyInt 2001) (PyInt 1500) ].
Proof. reflexivity. Qed.

(** The host keeps the two handles of the slider from crossing
    ([allowCross=False]); a crossed range can drop the country column, and
    then [pd.melt] raises. *)
Example update_graph_crossed_range :
  mini_df five_years_df [2000; 2001; 2002; 2003; 2004] ["Andorra"%string]
          [2003; 2001] = Ok [] /\
  update_graph coerce_int_literals five_years_df [2000; 2001; 2002; 2003; 2004]
               ["Andorra"%string] [2003; 2001] = Raise KeyError.
Proof. split; reflexivity. Qed.

(** A selected year that does not fit in an int64 cannot be subtracted
    from a year of the axis; one that fits, far below the axis, makes
    [big - small + 2] wrap around to a negative position, from which the
    second slice takes every label, the country column included. *)
Example update_graph_far_years :
  mini_df five_years_df [2000; 2001; 2002; 2003; 2004] ["Andorra"%string]
          [2003; 2 ^ 63] = Raise OverflowError /\
  update_graph coerce_int_literals five_years_df [2000; 2001; 2002; 2003; 2004]
               ["Andorra"%string] [2003; 2 ^ 63] = Raise OverflowError /\
  int64_add (int64_sub 1 (- 2 ^ 63)) 2 = - 2 ^ 63 + 3 /\
  mini_df five_years_df [2000; 2001; 2002; 2003; 2004] ["Andorra"%string]
          [- 2 ^ 63 + 2000; 2001] = Ok [] /\
  update_graph coerce_int_literals five_years_df [2000; 2001; 2002; 2003; 2004]
               ["Andorra"%string] [- 2 ^ 63 + 2000; 2001] = Raise KeyError.
Proof. repeat split; vm_compute; reflexivity. Qed.

(** The values of the records are stored under one dtype: next to a column
    of floats the integer 900 comes out as the float 900.0, and an integer
    beyond 64 bits comes out as the nearest float, the other values being
    floats with it. *)
Example update_graph_one_dtype :
  update_graph coerce_int_literals bare_k_df [2000; 2001] ["Andorra"%string]
               [2000; 2001]
  = Ok [ mkTidy (PyStr "Andorra") (PyInt 2000) (PyFloat (float_of_int 900));
         mkTidy (PyStr "Andorra") (PyInt 2001) (PyFloat float_1000) ] /\
  update_graph coerce_int_literals
               [ ("country", [PyStr "Andorra"]);
                 ("2000", [PyInt 99999999999999999999000]);
                 ("2001", [PyInt 5]) ]
               [2000; 2001] ["Andorra"%string] [2000; 2001]
  = Ok [ mkTidy (PyStr "Andorra") (PyInt 2000)
                (PyFloat (float_of_int 99999999999999999999000));
         mkTidy (PyStr "Andorra") (PyInt 2001) (PyFloat (float_of_int 5)) ] /\
  float_eq_int (float_of_int 900) 900 = true /\
  float_eq_int (float_of_int 99999999999999999999000) 99999999999999991611392
  = true.
Proof. repeat split; vm_compute; reflexivity. Qed.

(** A column keeps its dtype when rows are selected: in a column of the
    table that holds a float, the integers of the selected rows come out
    as floats, the float itself not being selected. *)
Example update_graph_dtype_of_the_table :
  update_graph coerce_int_literals
               [ ("country", [PyStr "Andorra"; PyStr "Belize"]);
                 ("2000", [PyInt 900; PyFloat float_1000]) ]
               [2000] ["Andorra"%string] [2000; 2000]
  = Ok [ mkTidy (PyStr "Andorra") (PyInt 2000) (PyFloat (float_of_int 900)) ].
Proof. vm_compute. reflexivity. Qed.

(** ** [int] on texts of digits *)

Lemma is_digit_not_space c : is_digit c = true -> is_space c = false.
Proof.
  unfold is_digit, is_space. intros H.
  apply andb_prop in H as [H1 H2].
  apply N.leb_le in H1. apply N.leb_le in H2.
  repeat (apply orb_false_intro);
    try (apply andb_false_intro2; apply N.leb_gt; lia);
    apply N.eqb_neq; lia.
Qed.

Lemma is_digit_neq c d :
  is_digit c = true -> is_digit d = false -> Ascii.eqb c d = false.
Proof.
  intros Hc Hd. destruct (Ascii.eqb_spec c d) as [->|]; congruence.
Qed.

Lemma scan_digits_all x : forall prev acc n,
  all_digits x = true -> x <> EmptyString ->
  scan_digits x prev acc n
  = Some (digits_value acc x, (n + String.length x)%nat, EmptyString).
Proof.
  induction x as [|c x IH]; intros prev acc n Hd Hne; [congruence|].
  simpl in Hd. apply andb_prop in Hd as [Hc Hx].
  simpl. rewrite Hc.
  destruct x as [|c' x'].
  - simpl. do 2 f_equal. f_equal. lia.
  - rewrite IH by (auto; discriminate).
    do 2 f_equal. f_equal. simpl. lia.
Qed.

Lemma split_sign_digit c x :
  is_digit c = true -> split_sign (String c x) = (false, String c x).
Proof.
  intros Hc. unfold split_sign.
  now rewrite !(is_digit_neq c _ Hc) by reflexivity.
Qed.

Lemma py_int_decimal x : decimal x -> py_int x = Ok (digits_value 0 x).
Proof.
  intros (Hd & Hne & Hlen). unfold py_int.
  destruct x as [|c x]; [congruence|].
  pose proof Hd as Hd'. simpl in Hd'. apply andb_prop in Hd' as [Hc _].
  assert (Hs : lstrip (String c x) = String c x).
  { simpl. now rewrite (is_digit_not_space c Hc). }
  rewrite Hs, (split_sign_digit c x Hc).
  unfold leading_underscore. rewrite (is_digit_neq c "_" Hc) by reflexivity.
  rewrite scan_digits_all by assumption.
  cbn [Nat.add].
  replace (String.length (String c x) =? 0)%nat with false by reflexivity.
  replace (int_max_str_digits <? String.length (String c x))%nat with false
    by (symmetry; apply Nat.ltb_ge; exact Hlen).
  reflexivity.
Qed.

(** ** The [str] methods on texts put together *)

Lemma contains_app c a b :
  contains c (a ++ b)%string = contains c a || contains c b.
Proof.
  induction a as [|d a IH]; simpl; [reflexivity|].
  now rewrite IH, orb_assoc.
Qed.

Lemma contains_digits c x :
  is_digit c = false -> all_digits x = true -> contains c x = false.
Proof.
  intros Hc. induction x as [|d x IH]; simpl; [reflexivity|].
  intros H. apply andb_prop in H as [Hd Hx].
  now rewrite (is_digit_neq d c Hd Hc), IH.
Qed.

Lemma remove_char_app c a b :
  remove_char c (a ++ b)%string = (remove_char c a ++ remove_char c b)%string.
Proof.
  induction a as [|d a IH]; simpl; [reflexivity|].
  destruct (Ascii.eqb d c); simpl; now rewrite IH.
Qed.

Lemma remove_char_absent c x : contains c x = false -> remove_char c x = x.
Proof.
  induction x as [|d x IH]; simpl; [reflexivity|].
  intros H. apply orb_false_elim in H as [Hd Hx].
  now rewrite Hd, IH.
Qed.

Lemma split_absent c x : contains c x = false -> split c x = [x].
Proof.
  induction x as [|d x IH]; simpl; [reflexivity|].
  intros H. apply orb_false_elim in H as [Hd Hx].
  now rewrite Hd, IH.
Qed.

Lemma split_app c a b :
  contains c a = false ->
  split c (a ++ String c b)%string = a :: split c b.
Proof.
  induction a as [|d a IH]; simpl.
  - intros _. now rewrite Ascii.eqb_refl.
  - intros H. apply orb_false_elim in H as [Hd Ha].
    now rewrite Hd, IH.
Qed.

(** What the decimal branch computes on [I.Fk]: the whole of [F] is read
    as one integer and scaled by 100. *)
Lemma value_to_int_point_k i f :
  decimal i -> decimal f ->
  value_to_int (PyStr (i ++ "." ++ f ++ "k"))
  = Ok (PyInt (digits_value 0 i * 1000 + digits_value 0 f * 100)).
Proof.
  intros Hi Hf.
  pose proof Hi as (Hdi & _). pose proof Hf as (Hdf & _).
  unfold value_to_int.
  assert (Hk : contains "k" (i ++ "." ++ f ++ "k") = true).
  { rewrite !contains_app. simpl. now rewrite !orb_true_r. }
  assert (Hp : contains "." (i ++ "." ++ f ++ "k") = true).
  { rewrite contains_app. simpl. now rewrite orb_true_r. }
  rewrite Hk, Hp.
  assert (Hr : remove_char "k" (i ++ "." ++ f ++ "k") = (i ++ "." ++ f)%string).
  { rewrite !remove_char_app.
    rewrite (remove_char_absent "k" i), (remove_char_absent "k" f)
      by (apply contains_digits; [reflexivity | assumption]).
    simpl. f_equal. f_equal. clear. induction f; simpl; congruence. }
  rewrite Hr.
  change (i ++ "." ++ f)%string with (i ++ String "." f)%string.
  rewrite split_app by (apply contains_digits; [reflexivity | assumption]).
  rewrite split_absent by (apply contains_digits; [reflexivity | assumption]).
  cbn [py_index List.length Z.of_nat Z.ltb Z.leb Z.compare orb nth_error
       Z.to_nat bind].
  rewrite (py_int_decimal i Hi). cbn [bind].
  change (py_index [i; f] 1) with (Ok f). cbn [bind].
  rewrite (py_int_decimal f Hf). reflexivity.
Qed.

(** The suffix branch on [Dk]. *)
Lemma value_to_int_k d :
  decimal d ->
  value_to_int (PyStr (d ++ "k")) = Ok (PyInt (digits_value 0 d * 1000)).
Proof.
  intros Hd. pose proof Hd as (Hdd & Hne & _).
  unfold value_to_int.
  rewrite contains_app. simpl (contains "k" "k"). rewrite orb_true_r.
  rewrite contains_app. simpl (contains "." "k").
  rewrite (contains_digits "." d) by (reflexivity || assumption). simpl orb.
  assert (Hl : (1 <? String.length (d ++ "k"))%nat = true).
  { apply Nat.ltb_lt. destruct d as [|c d]; [congruence|].
    simpl. destruct d; simpl; lia. }
  rewrite Hl, remove_char_app.
  rewrite (remove_char_absent "k" d)
    by (apply contains_digits; [reflexivity | assumption]).
  simpl (remove_char "k" "k").
  replace (d ++ "")%string with d by (clear; induction d; simpl; congruence).
  now rewrite (py_int_decimal d Hd).
Qed.

(** The last branch on a text of digits. *)
Lemma value_to_int_decimal d :
  decimal d -> value_to_int (PyStr d) = Ok (PyInt (digits_value 0 d)).
Proof.
  intros Hd. pose proof Hd as (Hdd & _).
  unfold value_to_int.
  rewrite (contains_digits "k" d) by (reflexivity || assumption).
  now rewrite (py_int_decimal d Hd).
Qed.

(** ** Consecutive years *)

Lemma Zseq_length a n : List.length (Zseq a n) = n.
Proof. revert a. induction n; intros; simpl; auto. Qed.

Lemma In_Zseq y n : forall a, In y (Zseq a n) <-> a <= y < a + Z.of_nat n.
Proof.
  induction n as [|n IH]; intros a; simpl Zseq.
  - simpl. lia.
  - simpl In. rewrite IH. lia.
Qed.

Lemma Zseq_NoDup n : forall a, NoDup (Zseq a n).
Proof.
  induction n as [|n IH]; intros a; simpl; constructor; auto.
  rewrite In_Zseq. lia.
Qed.

Lemma skipn_Zseq j : forall a n,
  skipn j (Zseq a n) = Zseq (a + Z.of_nat j) (n - j).
Proof.
  induction j as [|j IH]; intros a n.
  - simpl. now rewrite Z.add_0_r, Nat.sub_0_r.
  - destruct n as [|n]; [reflexivity|].
    cbn [Zseq skipn Nat.sub]. rewrite IH. f_equal. lia.
Qed.

Lemma firstn_Zseq k : forall a n, firstn k (Zseq a n) = Zseq a (Nat.min k n).
Proof.
  induction k as [|k IH]; intros a n; [reflexivity|].
  destruct n as [|n]; [reflexivity|].
  cbn [Zseq firstn Nat.min]. now rewrite IH.
Qed.

Lemma last_Zseq n : forall a d, last (Zseq a (S n)) d = a + Z.of_nat n.
Proof.
  induction n as [|n IH]; intros a d; [simpl; lia|].
  change (last (Zseq a (S (S n))) d) with (last (Zseq (a + 1) (S n)) d).
  rewrite IH. lia.
Qed.

Lemma contiguous_Zseq a n : contiguous (Zseq a n).
Proof.
  unfold contiguous. rewrite Zseq_length. destruct n; reflexivity.
Qed.

(** ** Lists *)

Lemma filter_none {A} (p : A -> bool) l :
  (forall x, In x l -> p x = false) -> filter p l = [].
Proof.
  induction l as [|a l IH]; intros H; simpl; [reflexivity|].
  rewrite (H a) by now left. apply IH. intros; apply H; now right.
Qed.

Lemma filter_all {A} (p : A -> bool) l :
  (forall x, In x l -> p x = true) -> filter p l = l.
Proof.
  induction l as [|a l IH]; intros H; simpl; [reflexivity|].
  rewrite (H a) by now left. f_equal. apply IH. intros; apply H; now right.
Qed.

Lemma filter_mask_map {A} (p : A -> bool) l :
  filter_mask (map p l) l = filter p l.
Proof.
  induction l as [|a l IH]; simpl; [reflexivity|].
  destruct (p a); now rewrite IH.
Qed.

Lemma mem_In l labels : mem l labels = true <-> In l labels.
Proof.
  unfold mem. rewrite existsb_exists. split.
  - intros (x & Hx & Heq). apply String.eqb_eq in Heq. now subst.
  - intros H. exists l. split; [assumption | apply String.eqb_refl].
Qed.

Lemma mem_not_In l labels : mem l labels = false <-> ~ In l labels.
Proof.
  rewrite <- mem_In. destruct (mem l labels); split; congruence.
Qed.

(** The middle of a list cut in three, by filtering on membership. *)
Lemma firstn_skipn_middle {A} (p : A -> bool) l j k :
  (forall x, In x (firstn j l) -> p x = false) ->
  (forall x, In x (firstn k (skipn j l)) -> p x = true) ->
  (forall x, In x (skipn k (skipn j l)) -> p x = false) ->
  filter p l = firstn k (skipn j l).
Proof.
  intros H1 H2 H3.
  rewrite <- (firstn_skipn j l) at 1.
  rewrite <- (firstn_skipn k (skipn j l)) at 1.
  rewrite !filter_app.
  now rewrite (filter_none p _ H1), (filter_all p _ H2), (filter_none p _ H3),
    app_nil_r.
Qed.

Lemma filter_range_Zseq s e a n :
  a <= s ->
  filter (in_range s e) (Zseq a n)
  = firstn (Z.to_nat (e - s + 1)) (skipn (Z.to_nat (s - a)) (Zseq a n)).
Proof.
  intros Has. apply firstn_skipn_middle; intros y Hy.
  - rewrite firstn_Zseq in Hy. apply In_Zseq in Hy.
    unfold in_range. apply andb_false_intro1. apply Z.leb_gt. lia.
  - rewrite skipn_Zseq, firstn_Zseq in Hy. apply In_Zseq in Hy.
    unfold in_range. apply andb_true_intro. split; apply Z.leb_le; lia.
  - rewrite !skipn_Zseq in Hy. apply In_Zseq in Hy.
    unfold in_range. apply andb_false_intro2. apply Z.leb_gt. lia.
Qed.

Lemma range_Zseq s e a n :
  a <= s -> s <= e -> e < a + Z.of_nat n ->
  firstn (Z.to_nat (e - s + 1)) (skipn (Z.to_nat (s - a)) (Zseq a n))
  = Zseq s (Z.to_nat (e - s + 1)).
Proof.
  intros. rewrite skipn_Zseq, firstn_Zseq.
  f_equal; lia.
Qed.

(** ** [mapM] *)

Lemma mapM_Forall2 {A B} (f : A -> result B) l : forall l',
  mapM f l = Ok l' <-> Forall2 (fun a b => f a = Ok b) l l'.
Proof.
  induction l as [|a l IH]; intros l'; simpl.
  - split; intros H.
    + injection H as <-. constructor.
    + now inversion H.
  - destruct (f a) as [b|e] eqn:Hfa; simpl.
    + destruct (mapM f l) as [bs|e] eqn:Hm; simpl.
      * split; intros H.
        -- injection H as <-. constructor; [assumption | now apply IH].
        -- inversion H; subst. apply IH in H4. congruence.
      * split; intros H; [discriminate|].
        inversion H; subst. apply IH in H4. discriminate.
    + split; intros H; [discriminate|]. inversion H; congruence.
Qed.

Lemma Forall2_firstn {A B} (R : A -> B -> Prop) k : forall l l',
  Forall2 R l l' -> Forall2 R (firstn k l) (firstn k l').
Proof.
  induction k as [|k IH]; intros l l' H; [constructor|].
  destruct H; simpl; constructor; auto.
Qed.

Lemma Forall2_skipn {A B} (R : A -> B -> Prop) k : forall l l',
  Forall2 R l l' -> Forall2 R (skipn k l) (skipn k l').
Proof.
  induction k as [|k IH]; intros l l' H; [assumption|].
  destruct H; simpl; [constructor | auto].
Qed.

Lemma mapM_firstn_skipn {A B} (f : A -> result B) l l' j k :
  mapM f l = Ok l' ->
  mapM f (firstn k (skipn j l)) = Ok (firstn k (skipn j l')).
Proof.
  rewrite !mapM_Forall2. intros H.
  now apply Forall2_firstn, Forall2_skipn.
Qed.

Lemma Forall2_In_l {A B} (R : A -> B -> Prop) l l' a :
  Forall2 R l l' -> In a l -> exists b, In b l' /\ R a b.
Proof.
  induction 1 as [|x y l l' Hxy _ IH]; intros Hin; [contradiction|].
  destruct Hin as [->|Hin].
  - exists y. split; [now left | assumption].
  - destruct (IH Hin) as (b & Hb & HR). exists b. split; [now right | assumption].
Qed.

(** Labels that read as distinct numbers are distinct. *)
Lemma Forall2_NoDup {A B} (f : A -> result B) l l' :
  Forall2 (fun a b => f a = Ok b) l l' -> NoDup l' -> NoDup l.
Proof.
  induction 1 as [|a b l l' Hab HF IH]; intros Hnd; [constructor|].
  inversion Hnd as [|? ? Hb Hnd']; subst. constructor; [|auto].
  intros Hin. destruct (Forall2_In_l _ _ _ _ HF Hin) as (b' & Hb' & Hfb).
  rewrite Hab in Hfb. injection Hfb as <-. contradiction.
Qed.

Lemma Forall2_length_eq {A B} (R : A -> B -> Prop) l l' :
  Forall2 R l l' -> List.length l = List.length l'.
Proof. induction 1; simpl; congruence. Qed.

(** ** The frame read from the file *)

Lemma getitem_In df name vs : getitem df name = Ok vs -> In name (columns df).
Proof.
  induction df as [|[l ws] df IH]; simpl; [discriminate|].
  destruct (String.eqb_spec l name) as [->|]; [now left|].
  intros H. right. now apply IH.
Qed.

Lemma years_of_Ok df ys :
  years_of df = Ok ys <->
  len (tl (columns df)) < 2 ^ 60 /\ mapM astype_int (tl (columns df)) = Ok ys.
Proof.
  unfold years_of, len.
  destruct (2 ^ 60 <=? Z.of_nat (List.length (tl (columns df)))) eqn:E.
  - apply Z.leb_le in E. split; [discriminate | intros (H & _); lia].
  - apply Z.leb_gt in E. tauto.
Qed.

Lemma astype_int_int64 l y : astype_int l = Ok y -> - 2 ^ 63 <= y < 2 ^ 63.
Proof.
  unfold astype_int. destruct (py_int l) as [z|]; [|discriminate]. cbn [bind].
  destruct ((- 2 ^ 63 <=? z) && (z <? 2 ^ 63)) eqn:E; [|discriminate].
  intros H. injection H as <-.
  apply andb_prop in E as [E1 E2]. apply Z.leb_le in E1. apply Z.ltb_lt in E2.
  lia.
Qed.

(** The years read off the labels are int64 values, fewer than [2 ^ 60]. *)
Lemma years_of_bounds df ys :
  years_of df = Ok ys ->
  len ys < 2 ^ 60 /\ forall y, In y ys -> - 2 ^ 63 <= y < 2 ^ 63.
Proof.
  intros H. apply years_of_Ok in H as (Hlen & H). apply mapM_Forall2 in H.
  split.
  - unfold len in *. now rewrite <- (Forall2_length_eq _ _ _ H).
  - intros y Hy. clear Hlen. induction H as [|l y' ls ys Hl _ IH]; [contradiction|].
    destruct Hy as [<-|Hy]; [eapply astype_int_int64; eassumption | auto].
Qed.

(** A frame with a country column and readable years has the country
    column first and the year columns after it, under distinct labels. *)
Lemma frame_shape df keys ys :
  getitem df "country" = Ok keys -> years_of df = Ok ys ->
  exists ycols,
    df = ("country"%string, keys) :: ycols /\
    Forall2 (fun l y => astype_int l = Ok y) (columns ycols) ys /\
    ~ In "country"%string (columns ycols).
Proof.
  intros Hg Hy. apply years_of_Ok in Hy as (_ & Hy). apply mapM_Forall2 in Hy.
  assert (Hno : ~ In "country"%string (tl (columns df))).
  { intros Hin. destruct (Forall2_In_l _ _ _ _ Hy Hin) as (y & _ & Hc).
    discriminate Hc. }
  destruct df as [|[l vs] ycols]; [discriminate|].
  simpl in Hg, Hy, Hno.
  destruct (String.eqb_spec l "country") as [->|Hl].
  - injection Hg as <-. exists ycols. auto.
  - apply getitem_In in Hg. contradiction.
Qed.

Lemma columns_loc df mask : columns (loc df mask) = columns df.
Proof.
  unfold columns, loc. rewrite map_map. reflexivity.
Qed.

Lemma length_loc df mask : List.length (loc df mask) = List.length df.
Proof. unfold loc. apply length_map. Qed.

(** ** Slices and dropped columns *)

Lemma len_cons {A} (a : A) l : len (a :: l) = len l + 1.
Proof. unfold len. simpl List.length. lia. Qed.

Lemma len_nonneg {A} (l : list A) : 0 <= len l.
Proof. unfold len. lia. Qed.

(** [columns[1:small+1]]: the first [small] labels after the first. *)
Lemma py_slice_head {A} (c : A) ls small :
  0 <= small ->
  py_slice (c :: ls) 1 (small + 1) = firstn (Z.to_nat small) ls.
Proof.
  intros Hs. unfold py_slice, slice_bound. rewrite len_cons.
  pose proof (len_nonneg ls) as Hn.
  destruct (1 <? 0) eqn:E1; [apply Z.ltb_lt in E1; lia|].
  destruct (small + 1 <? 0) eqn:E2; [apply Z.ltb_lt in E2; lia|].
  replace (Z.to_nat (Z.min 1 (len ls + 1))) with 1%nat by lia.
  cbn [skipn].
  destruct (Z.le_gt_cases small (len ls)).
  - f_equal. lia.
  - rewrite !firstn_all2; [reflexivity| |]; unfold len in *; lia.
Qed.

(** [columns[d+2:len(columns)+1]]: the labels past the first [d+1] after
    the first. *)
Lemma py_slice_tail {A} (c : A) ls d :
  0 <= d ->
  py_slice (c :: ls) (d + 2) (len (c :: ls) + 1) = skipn (Z.to_nat (d + 1)) ls.
Proof.
  intros Hd. unfold py_slice, slice_bound. rewrite len_cons.
  pose proof (len_nonneg ls) as Hn.
  destruct (d + 2 <? 0) eqn:E1; [apply Z.ltb_lt in E1; lia|].
  destruct (len ls + 1 + 1 <? 0) eqn:E2; [apply Z.ltb_lt in E2; lia|].
  destruct (Z.le_gt_cases (d + 2) (len ls + 1)).
  - replace (Z.to_nat (Z.min (d + 2) (len ls + 1))) with (S (Z.to_nat (d + 1)))
      by lia.
    cbn [skipn]. apply firstn_all2. rewrite length_skipn. unfold len in *. lia.
  - replace (Z.to_nat (Z.min (len ls + 1 + 1) (len ls + 1)
                       - Z.min (d + 2) (len ls + 1))) with 0%nat by lia.
    cbn [firstn]. symmetry. apply skipn_all2. unfold len in *. lia.
Qed.

Lemma NoDup_app_disjoint {A} (a b : list A) x :
  NoDup (a ++ b) -> In x a -> In x b -> False.
Proof.
  induction a as [|y a IH]; simpl; intros Hnd Ha Hb; [contradiction|].
  inversion Hnd as [|? ? Hy Hnd']; subst.
  destruct Ha as [->|Ha]; [|eauto].
  apply Hy, in_or_app. now right.
Qed.

Lemma columns_app a b : columns (a ++ b) = columns a ++ columns b.
Proof. apply map_app. Qed.

(** Dropping the labels of a leading block leaves the rest, and dropping
    those of a trailing block leaves the beginning. *)
Lemma drop_app_l c a b :
  NoDup (columns (a ++ b)) -> ~ In (fst c) (columns (a ++ b)) ->
  drop (c :: a ++ b) (columns a) = c :: b.
Proof.
  rewrite columns_app. intros Hnd Hc. unfold drop. simpl filter.
  replace (mem (fst c) (columns a)) with false.
  2:{ symmetry. apply mem_not_In. intros Hin. apply Hc, in_or_app. now left. }
  simpl. f_equal. rewrite filter_app, filter_none, filter_all; [reflexivity| |].
  - intros x Hx. apply negb_true_iff, mem_not_In. intros Hin.
    apply (NoDup_app_disjoint _ _ (fst x) Hnd Hin). now apply in_map.
  - intros x Hx. apply negb_false_iff, mem_In. now apply in_map.
Qed.

Lemma drop_app_r c a b :
  NoDup (columns (a ++ b)) -> ~ In (fst c) (columns (a ++ b)) ->
  drop (c :: a ++ b) (columns b) = c :: a.
Proof.
  rewrite columns_app. intros Hnd Hc. unfold drop. simpl filter.
  replace (mem (fst c) (columns b)) with false.
  2:{ symmetry. apply mem_not_In. intros Hin. apply Hc, in_or_app. now right. }
  simpl. f_equal.
  rewrite filter_app, filter_all, filter_none; [apply app_nil_r| |].
  - intros x Hx. apply negb_false_iff, mem_In. now apply in_map.
  - intros x Hx. apply negb_true_iff, mem_not_In. intros Hin.
    apply (NoDup_app_disjoint _ _ (fst x) Hnd); [|assumption].
    now apply in_map.
Qed.

Lemma drop_leading c ycols k :
  NoDup (columns ycols) -> ~ In (fst c) (columns ycols) ->
  drop (c :: ycols) (firstn k (columns ycols)) = c :: skipn k ycols.
Proof.
  intros Hnd Hc.
  replace (firstn k (columns ycols)) with (columns (firstn k ycols))
    by (symmetry; apply firstn_map).
  rewrite <- (firstn_skipn k ycols) in Hnd, Hc.
  rewrite <- (firstn_skipn k ycols) at 1.
  now apply drop_app_l.
Qed.

Lemma drop_trailing c ycols k :
  NoDup (columns ycols) -> ~ In (fst c) (columns ycols) ->
  drop (c :: ycols) (skipn k (columns ycols)) = c :: firstn k ycols.
Proof.
  intros Hnd Hc.
  replace (skipn k (columns ycols)) with (columns (skipn k ycols))
    by (symmetry; apply skipn_map).
  rewrite <- (firstn_skipn k ycols) in Hnd, Hc.
  rewrite <- (firstn_skipn k ycols) at 1.
  now apply drop_app_r.
Qed.

Lemma py_index_0 {A} (a : A) l : py_index (a :: l) 0 = Ok a.
Proof.
  unfold py_index. cbn [Z.ltb Z.compare].
  destruct (Z.of_nat (List.length (a :: l)) <=? 0) eqn:E.
  - apply Z.leb_le in E. simpl List.length in E. lia.
  - reflexivity.
Qed.

Lemma py_index_1 {A} (a b : A) l : py_index (a :: b :: l) 1 = Ok b.
Proof.
  unfold py_index. cbn [Z.ltb Z.compare].
  destruct (Z.of_nat (List.length (a :: b :: l)) <=? 1) eqn:E.
  - apply Z.leb_le in E. simpl List.length in E. lia.
  - reflexivity.
Qed.

Lemma NoDup_skipn {A} (l : list A) k : NoDup l -> NoDup (skipn k l).
Proof.
  intros H. rewrite <- (firstn_skipn k l) in H.
  now apply NoDup_app_remove_l in H.
Qed.

Lemma In_skipn {A} (l : list A) k x : In x (skipn k l) -> In x l.
Proof.
  intros H. rewrite <- (firstn_skipn k l). apply in_or_app. now right.
Qed.

Lemma In_firstn {A} (l : list A) k x : In x (firstn k l) -> In x l.
Proof.
  intros H. rewrite <- (firstn_skipn k l). apply in_or_app. now left.
Qed.

(** ** 64-bit offsets *)

Lemma in_int64_spec z : in_int64 z = true <-> - 2 ^ 63 <= z < 2 ^ 63.
Proof.
  unfold in_int64. rewrite andb_true_iff, Z.leb_le, Z.ltb_lt. tauto.
Qed.

Lemma wrap64_id z : - 2 ^ 63 <= z < 2 ^ 63 -> wrap64 z = z.
Proof.
  intros H. unfold wrap64. rewrite Z.mod_small; lia.
Qed.

Lemma int64_rsub_exact i y :
  - 2 ^ 63 <= i < 2 ^ 63 -> - 2 ^ 63 <= i - y < 2 ^ 63 ->
  int64_rsub i y = Ok (i - y).
Proof.
  intros Hi Hd. unfold int64_rsub.
  rewrite (proj2 (in_int64_spec i) Hi). now rewrite wrap64_id.
Qed.

(** A year of the axis is within reach of the first one. *)
Lemma on_axis_within_reach df ys y :
  years_of df = Ok ys -> contiguous ys -> In y ys -> within_reach (hd 0 ys) y.
Proof.
  intros Hy Hc Hin. destruct (years_of_bounds df ys Hy) as (Hlen & Hb).
  split; [now apply Hb|].
  rewrite Hc in Hin. apply In_Zseq in Hin. unfold len in Hlen. lia.
Qed.

(** ** What the selection returns

    By positions [a <= b] counted from the first year column: the country
    column under the mask, then the year columns from position [a] on,
    [b - a + 1] of them at most. *)
Lemma initial_mini_df_shape keys ycols C a b :
  NoDup (columns ycols) -> ~ In "country"%string (columns ycols) ->
  0 <= a -> a <= b ->
  initial_mini_df (("country"%string, keys) :: ycols) C a b
  = Ok (("country"%string, filter (isin C) keys)
        :: firstn (Z.to_nat (b - a + 1))
             (skipn (Z.to_nat a) (loc ycols (map (isin C) keys)))).
Proof.
  intros Hnd Hc Hs He.
  unfold initial_mini_df. cbn [getitem String.eqb Ascii.eqb Bool.eqb bind].
  set (mask := map (isin C) keys).
  set (c0 := ("country"%string, filter (isin C) keys)).
  set (L := loc ycols mask).
  assert (Hloc : loc (("country"%string, keys) :: ycols) mask = c0 :: L).
  { unfold loc, c0, mask. cbn [map fst snd]. now rewrite filter_mask_map. }
  rewrite Hloc. clear Hloc.
  assert (Hnd' : NoDup (columns L)) by (unfold L; now rewrite columns_loc).
  assert (Hc' : ~ In (fst c0) (columns L)) by (unfold L; now rewrite columns_loc).
  assert (Hcols : forall l, columns (c0 :: l) = "country"%string :: columns l)
    by reflexivity.
  rewrite Hcols, py_slice_head by lia.
  rewrite (drop_leading c0) by assumption.
  rewrite Hcols.
  rewrite (py_slice_tail _ _ (b - a)) by lia.
  set (j := Z.to_nat a).
  assert (Hsk : columns (skipn j L) = skipn j (columns L))
    by (symmetry; apply skipn_map).
  rewrite (drop_trailing c0).
  - reflexivity.
  - rewrite Hsk. now apply NoDup_skipn.
  - rewrite Hsk. intros Hin. apply Hc'. eapply In_skipn; eassumption.
Qed.

(** The callback works by the positions of the two years: as long as the
    selected years are within reach of the first year of the axis, its
    64-bit offsets are the exact differences. *)
Lemma mini_df_by_position df ys C s e :
  ys <> [] -> within_reach (hd 0 ys) s -> within_reach (hd 0 ys) e ->
  mini_df df ys C [s; e] = initial_mini_df df C (s - hd 0 ys) (e - hd 0 ys).
Proof.
  intros Hne (Hs & Hsd) (He & Hed).
  destruct ys as [|y0 ys]; [congruence|]. cbn [hd] in *.
  unfold mini_df, initial_mini_df.
  destruct (getitem df "country") as [country|]; [|reflexivity].
  cbn [bind]. rewrite py_index_0, py_index_1, py_index_0. cbn [bind].
  rewrite !int64_rsub_exact by lia. cbn [bind].
  unfold int64_add, int64_sub.
  rewrite (wrap64_id (s - y0 + 1)) by lia.
  rewrite (wrap64_id (e - y0 - (s - y0))) by lia.
  rewrite (wrap64_id (e - y0 - (s - y0) + 2)) by lia.
  reflexivity.
Qed.

(** By years: with the first year [y0] of the axis not above the start
    [s], and [s <= e] within reach. *)
Lemma mini_df_shape keys ycols years y0 C s e :
  NoDup (columns ycols) -> ~ In "country"%string (columns ycols) ->
  hd_error years = Some y0 -> y0 <= s -> s <= e ->
  within_reach y0 s -> within_reach y0 e ->
  mini_df (("country"%string, keys) :: ycols) years C [s; e]
  = Ok (("country"%string, filter (isin C) keys)
        :: firstn (Z.to_nat (e - s + 1))
             (skipn (Z.to_nat (s - y0)) (loc ycols (map (isin C) keys)))).
Proof.
  intros Hnd Hc Hy Hs He Hrs Hre.
  destruct years as [|y years]; [discriminate|]. injection Hy as ->.
  rewrite mini_df_by_position by (assumption || discriminate). cbn [hd].
  rewrite initial_mini_df_shape by (assumption || lia).
  do 3 f_equal. lia.
Qed.

Lemma isin_spec C k : isin C k = true <-> exists c, k = PyStr c /\ In c C.
Proof.
  destruct k as [z|f|b|s]; simpl;
    try (split; [discriminate | intros (c & Hc & _); discriminate]).
  rewrite existsb_exists. split.
  - intros (c & Hc & Heq). apply String.eqb_eq in Heq. subst. eauto.
  - intros (c & Hc & Hin). injection Hc as ->.
    exists c. split; [assumption | apply String.eqb_refl].
Qed.

Lemma years_of_selection c0 L ys j k :
  len ys < 2 ^ 60 ->
  Forall2 (fun l y => astype_int l = Ok y) (columns L) ys ->
  years_of (c0 :: firstn k (skipn j L)) = Ok (firstn k (skipn j ys)).
Proof.
  intros Hlen H. apply years_of_Ok. cbn [columns map tl].
  fold (columns (firstn k (skipn j L))).
  replace (columns (firstn k (skipn j L))) with (firstn k (skipn j (columns L))).
  - split.
    + unfold len in *. rewrite length_firstn, length_skipn.
      rewrite (Forall2_length_eq _ _ _ H). lia.
    + apply mapM_firstn_skipn. now apply mapM_Forall2.
  - unfold columns. now rewrite skipn_map, firstn_map.
Qed.

(** The hypotheses on a loaded frame, put in the form the selection
    lemmas take. *)
Lemma loaded_frame df keys ys :
  getitem df "country" = Ok keys -> years_of df = Ok ys -> contiguous ys ->
  exists ycols,
    df = ("country"%string, keys) :: ycols /\
    Forall2 (fun l y => astype_int l = Ok y) (columns ycols) ys /\
    ~ In "country"%string (columns ycols) /\
    NoDup (columns ycols).
Proof.
  intros Hg Hy Hc.
  destruct (frame_shape df keys ys Hg Hy) as (ycols & -> & HF & Hno).
  exists ycols. repeat split; try assumption.
  apply (Forall2_NoDup _ _ _ HF). rewrite Hc. apply Zseq_NoDup.
Qed.

Lemma contiguous_bounds ys y :
  contiguous ys -> In y ys ->
  hd_error ys = Some (hd 0 ys) /\ hd 0 ys <= y < hd 0 ys + len ys.
Proof.
  intros Hc Hin. split.
  - destruct ys; [contradiction | reflexivity].
  - rewrite Hc in Hin. apply In_Zseq in Hin. exact Hin.
Qed.

Lemma In_loc l vs df mask :
  In (l, vs) (loc df mask) ->
  exists vs0, In (l, vs0) df /\ vs = filter_mask mask vs0.
Proof.
  unfold loc. rewrite in_map_iff. intros ([l0 vs0] & Heq & Hin).
  simpl in Heq. injection Heq as <- <-. eauto.
Qed.

(** C2.  For a loaded table (a country column, year columns whose labels
    read as consecutive years), every country selection [C] and every year
    range [s <= e] with both ends on the year axis: the selection returns a
    table whose country column holds exactly the keys of the table that are
    in [C], in the order of the table (none when [C] is empty), whose year
    columns are exactly the years [s..e], and whose columns are the
    columns of the table cut down to the selected rows. *)
Theorem select_rows_and_years df keys ys C s e :
  getitem df "country" = Ok keys -> years_of df = Ok ys -> contiguous ys ->
  In s ys -> In e ys -> s <= e ->
  exists m,
    mini_df df ys C [s; e] = Ok m /\
    (exists keys',
        getitem m "country" = Ok keys' /\
        keys' = filter (isin C) keys /\
        (forall k, In k keys' <-> In k keys /\ exists c, k = PyStr c /\ In c C) /\
        (C = [] -> keys' = [])) /\
    years_of m = Ok (Zseq s (Z.to_nat (e - s + 1))) /\
    (forall l vs, In (l, vs) m ->
       exists vs0, In (l, vs0) df /\ vs = filter_mask (map (isin C) keys) vs0).
Proof.
  intros Hg Hy Hc Hs He Hse.
  destruct (loaded_frame df keys ys Hg Hy Hc) as (ycols & -> & HF & Hno & Hnd).
  destruct (contiguous_bounds ys s Hc Hs) as (Hhd & Hsb).
  destruct (contiguous_bounds ys e Hc He) as (_ & Heb).
  pose proof (on_axis_within_reach _ _ _ Hy Hc Hs) as Hrs.
  pose proof (on_axis_within_reach _ _ _ Hy Hc He) as Hre.
  destruct (years_of_bounds _ _ Hy) as (Hlen60 & _).
  rewrite (mini_df_shape keys ycols ys (hd 0 ys) C s e) by (assumption || lia).
  eexists. split; [reflexivity|]. split; [|split].
  - exists (filter (isin C) keys).
    split; [reflexivity|]. split; [reflexivity|]. split.
    + intros k. rewrite filter_In, isin_spec. tauto.
    + intros ->. apply filter_none. intros x _.
      destruct x; reflexivity.
  - rewrite (years_of_selection _ _ ys)
      by (assumption || now rewrite columns_loc).
    f_equal. unfold contiguous in Hc. unfold len in *.
    set (y0 := hd 0 ys) in *. rewrite Hc. apply range_Zseq; lia.
  - intros l vs [Heq|Hin].
    + injection Heq as <- <-. exists keys. split; [now left|].
      symmetry. apply filter_mask_map.
    + apply In_firstn, In_skipn, In_loc in Hin as (vs0 & Hin & ->).
      exists vs0. split; [now right | reflexivity].
Qed.

Lemma select_rows_and_years_witness :
  exists m,
    mini_df scenario_df [2000; 2001; 2002] ["Zimbabwe"%string] [2000; 2001]
    = Ok m /\
    years_of m = Ok [2000; 2001].
Proof.
  destruct (select_rows_and_years scenario_df
              [PyStr "Andorra"; PyStr "Zimbabwe"] [2000; 2001; 2002]
              ["Zimbabwe"%string] 2000 2001)
    as (m & Hm & _ & Hy & _);
    try reflexivity; try (simpl; tauto); try lia.
  exists m. split; [exact Hm | exact Hy].
Defined.

(** ** The selection never loses the country column when [s <= e] *)

Lemma py_slice_after_head {A} (c : A) ls lo hi x :
  1 <= lo -> In x (py_slice (c :: ls) lo hi) -> In x ls.
Proof.
  intros Hlo. unfold py_slice. rewrite len_cons.
  pose proof (len_nonneg ls) as Hn.
  assert (Hb : slice_bound (len ls + 1) lo = Z.min lo (len ls + 1)).
  { unfold slice_bound. destruct (lo <? 0) eqn:E; [|reflexivity].
    apply Z.ltb_lt in E. lia. }
  rewrite Hb.
  destruct (Z.to_nat (Z.min lo (len ls + 1))) as [|a] eqn:Ha; [lia|].
  cbn [skipn]. intros H. eapply In_skipn, In_firstn, H.
Qed.

Lemma drop_keeps_head c ls labels :
  ~ In (fst c) labels -> drop (c :: ls) labels = c :: drop ls labels.
Proof.
  intros H. apply mem_not_In in H. unfold drop. cbn [filter]. now rewrite H.
Qed.

Lemma In_columns_drop l ls labels :
  In l (columns (drop ls labels)) -> In l (columns ls).
Proof.
  unfold columns, drop. rewrite !in_map_iff.
  intros (c & Hl & Hc). apply filter_In in Hc as (Hc & _). eauto.
Qed.

Lemma In_drop c ls labels : In c (drop ls labels) -> In c ls.
Proof. unfold drop. intros H. now apply filter_In in H. Qed.

(** Whatever the positions, as long as [a <= b], the selection comes back
    with the country column first, followed by some of the year columns. *)
Lemma initial_mini_df_keeps_country keys ycols C a b :
  ~ In "country"%string (columns ycols) -> a <= b ->
  exists cols,
    initial_mini_df (("country"%string, keys) :: ycols) C a b
    = Ok (("country"%string, filter (isin C) keys) :: cols) /\
    (forall c, In c cols -> In c (loc ycols (map (isin C) keys))).
Proof.
  intros Hc Hse.
  unfold initial_mini_df. cbn [getitem String.eqb Ascii.eqb Bool.eqb bind].
  set (mask := map (isin C) keys).
  set (c0 := ("country"%string, filter (isin C) keys)).
  set (L := loc ycols mask).
  assert (Hloc : loc (("country"%string, keys) :: ycols) mask = c0 :: L).
  { unfold loc, c0, mask. cbn [map fst snd]. now rewrite filter_mask_map. }
  rewrite Hloc. clear Hloc.
  assert (Hc' : ~ In (fst c0) (columns L)) by (unfold L; now rewrite columns_loc).
  assert (Hcols : forall l, columns (c0 :: l) = "country"%string :: columns l)
    by reflexivity.
  rewrite Hcols.
  set (labels1 := py_slice ("country"%string :: columns L) 1 (a + 1)).
  assert (H1 : ~ In (fst c0) labels1).
  { intros Hin. apply Hc'. eapply py_slice_after_head; [|exact Hin]. lia. }
  rewrite (drop_keeps_head c0 L labels1 H1), Hcols.
  set (L1 := drop L labels1).
  set (labels2 := py_slice _ _ _).
  assert (H2 : ~ In (fst c0) labels2).
  { intros Hin. apply Hc'. apply (In_columns_drop _ L labels1).
    eapply py_slice_after_head; [|exact Hin]. lia. }
  rewrite (drop_keeps_head c0 L1 labels2 H2).
  exists (drop L1 labels2). split; [reflexivity|].
  intros c Hin. now apply In_drop, In_drop in Hin.
Qed.

(** By years: whatever the range within reach, as long as [s <= e]. *)
Lemma mini_df_keeps_country keys ycols years y0 C s e :
  ~ In "country"%string (columns ycols) -> hd_error years = Some y0 -> s <= e ->
  within_reach y0 s -> within_reach y0 e ->
  exists cols,
    mini_df (("country"%string, keys) :: ycols) years C [s; e]
    = Ok (("country"%string, filter (isin C) keys) :: cols) /\
    (forall c, In c cols -> In c (loc ycols (map (isin C) keys))).
Proof.
  intros Hc Hy Hse Hrs Hre.
  destruct years as [|y years]; [discriminate|]. injection Hy as ->.
  rewrite mini_df_by_position by (assumption || discriminate). cbn [hd].
  apply initial_mini_df_keeps_country; [assumption | lia].
Qed.

Lemma melt_with_country dtypes ks cols :
  exists records, melt dtypes (("country"%string, ks) :: cols) = Ok records.
Proof.
  unfold melt. cbn [getitem String.eqb Ascii.eqb Bool.eqb bind]. eauto.
Qed.

(** C3, as stated, fails: on the five-year table 2000..2004 the range
    (1998, 2001), whose start is below the first year, is not clamped to
    (2000, 2001).  [small] is -2, the slice [columns[1:-1]] counts from the
    end and drops the years 2000..2003, and the selection that comes back
    holds the one year 2004; the selection of the clamped range holds 2000
    and 2001. *)
Lemma select_start_below_min_not_clamped :
  clamp 2000 2004 1998 = 2000 /\ clamp 2000 2004 2001 = 2001 /\
  mini_df five_years_df [2000; 2001; 2002; 2003; 2004] ["Andorra"%string]
          [1998; 2001]
  = Ok [ ("country"%string, [PyStr "Andorra"]); ("2004"%string, [PyInt 5]) ] /\
  mini_df five_years_df [2000; 2001; 2002; 2003; 2004] ["Andorra"%string]
          [2000; 2001]
  = Ok [ ("country"%string, [PyStr "Andorra"]);
         ("2000"%string, [PyInt 1]); ("2001"%string, [PyInt 2]) ] /\
  mini_df five_years_df [2000; 2001; 2002; 2003; 2004] ["Andorra"%string]
          [1998; 2001]
  <> mini_df five_years_df [2000; 2001; 2002; 2003; 2004] ["Andorra"%string]
          [clamp 2000 2004 1998; clamp 2000 2004 2001].
Proof.
  repeat split; try reflexivity. vm_compute. discriminate.
Qed.

(** C3, amended.  For a loaded table and every year range [s <= e], in or
    out of the bounds of the axis, whose two years are within reach of the
    64-bit offsets (each fits in an int64 and lies within [2 ^ 61] of the
    first year), the selection and the callback return without raising.
    When the start is not below the first year of the axis, the selection
    holds exactly the years of the table that lie in [s..e]: an end beyond
    the last year acts as the last year (the selection is that of the
    range ending at the last year), and a start beyond the last year gives
    no year column. *)
Theorem select_out_of_bounds df keys ys C s e :
  getitem df "country" = Ok keys -> years_of df = Ok ys -> contiguous ys ->
  ys <> [] -> s <= e ->
  within_reach (hd 0 ys) s -> within_reach (hd 0 ys) e ->
  exists m,
    mini_df df ys C [s; e] = Ok m /\
    (forall coerce, is_ok (update_graph coerce df ys C [s; e]) = true) /\
    (hd 0 ys <= s ->
     years_of m = Ok (filter (in_range s e) ys) /\
     (In s ys -> last ys 0 <= e ->
      mini_df df ys C [s; last ys 0] = Ok m /\
      years_of m = Ok (Zseq s (Z.to_nat (last ys 0 - s + 1))))).
Proof.
  intros Hg Hy Hc Hne Hse Hrs Hre.
  destruct (loaded_frame df keys ys Hg Hy Hc) as (ycols & -> & HF & Hno & Hnd).
  destruct (years_of_bounds _ _ Hy) as (Hlen60 & _).
  assert (Hhd : hd_error ys = Some (hd 0 ys))
    by (destruct ys; [congruence | reflexivity]).
  destruct (mini_df_keeps_country keys ycols ys (hd 0 ys) C s e
              Hno Hhd Hse Hrs Hre) as (cols & Hm & _).
  eexists. split; [exact Hm|]. split.
  { intros coerce. unfold update_graph. rewrite Hm. cbn [bind].
    destruct (melt_with_country (column_dtype (("country"%string, keys) :: ycols))
                (filter (isin C) keys) cols) as (records & ->).
    reflexivity. }
  intros Hs.
  rewrite (mini_df_shape keys ycols ys (hd 0 ys) C s e) in Hm
    by (assumption || lia).
  injection Hm as <-.
  assert (Hlast : last ys 0 = hd 0 ys + len ys - 1).
  { unfold contiguous in Hc. unfold len. set (y0 := hd 0 ys) in *.
    rewrite Hc at 1. destruct (List.length ys) as [|n] eqn:Hn.
    - destruct ys; [congruence | discriminate].
    - rewrite last_Zseq. lia. }
  split.
  - rewrite (years_of_selection _ _ ys)
      by (assumption || now rewrite columns_loc).
    f_equal. unfold contiguous in Hc. set (y0 := hd 0 ys) in *.
    rewrite Hc. symmetry. now apply filter_range_Zseq.
  - intros Hin Hle.
    destruct (contiguous_bounds ys s Hc Hin) as (_ & Hsb).
    assert (Hrl : within_reach (hd 0 ys) (last ys 0)).
    { apply (on_axis_within_reach _ _ _ Hy Hc).
      assert (Hin' : In (hd 0 ys + len ys - 1) (Zseq (hd 0 ys) (List.length ys)))
        by (apply In_Zseq; unfold len in *; lia).
      rewrite <- Hc in Hin'. now rewrite Hlast. }
    rewrite (mini_df_shape keys ycols ys (hd 0 ys) C s (last ys 0))
      by (assumption || lia).
    assert (Hlen : List.length (loc ycols (map (isin C) keys)) = List.length ys).
    { rewrite length_loc. unfold columns in HF.
      rewrite <- (Forall2_length_eq _ _ _ HF). now rewrite length_map. }
    split.
    + do 2 f_equal.
      rewrite !firstn_all2; [reflexivity| |];
        rewrite length_skipn, Hlen; unfold len in *; lia.
    + rewrite (years_of_selection _ _ ys)
        by (assumption || now rewrite columns_loc).
      f_equal. unfold contiguous in Hc. set (y0 := hd 0 ys) in *.
      rewrite Hc at 1. rewrite skipn_Zseq, firstn_Zseq.
      f_equal; unfold len in *; lia.
Qed.

Lemma select_out_of_bounds_witness :
  exists m,
    mini_df five_years_df [2000; 2001; 2002; 2003; 2004] ["Andorra"%string]
            [2003; 2010] = Ok m /\
    years_of m = Ok [2003; 2004].
Proof.
  destruct (select_out_of_bounds five_years_df [PyStr "Andorra"]
              [2000; 2001; 2002; 2003; 2004] ["Andorra"%string] 2003 2010)
    as (m & Hm & _ & Hy);
    try reflexivity; try discriminate; try lia;
    try (unfold within_reach; simpl; lia).
  destruct Hy as (Hy & _); [simpl; lia|].
  exists m. split; [exact Hm | exact Hy].
Defined.

(** ** Reshaping *)

Lemma melt_shape dtypes ks cols :
  ~ In "country"%string (columns cols) ->
  melt dtypes (("country"%string, ks) :: cols)
  = Ok (flat_map (melt_column ks) (upcast dtypes cols)).
Proof.
  intros Hno. unfold melt.
  cbn [getitem String.eqb Ascii.eqb Bool.eqb bind filter fst negb].
  rewrite filter_all; [reflexivity|].
  intros c Hc. apply negb_true_iff.
  destruct (String.eqb_spec (fst c) "country") as [Heq|]; [|reflexivity].
  exfalso. apply Hno. rewrite <- Heq. now apply in_map.
Qed.

(** Storing the columns under one dtype changes neither the labels nor
    the number of cells. *)
Lemma In_upcast dtypes c cols :
  In c (upcast dtypes cols) ->
  exists c0, In c0 cols /\ fst c = fst c0 /\
             List.length (snd c) = List.length (snd c0).
Proof.
  unfold upcast, upcast_to. rewrite in_map_iff. intros (c0 & <- & Hin).
  exists c0. cbn [fst snd]. rewrite length_map. auto.
Qed.

Lemma length_upcast dtypes cols :
  List.length (upcast dtypes cols) = List.length cols.
Proof. unfold upcast, upcast_to. apply length_map. Qed.

Lemma Forall2_upcast_to {B} (R : string -> B -> Prop) n d cols (ys : list B) :
  Forall2 (fun c y => R (fst c) y /\ List.length (snd c) = n) cols ys ->
  Forall2 (fun c y => R (fst c) y /\ List.length (snd c) = n) (upcast_to d cols) ys.
Proof.
  induction 1 as [|c y cols ys [HR Hl] _ IH]; [constructor|].
  cbn [upcast_to map]. constructor; [|exact IH].
  cbn [fst snd]. now rewrite length_map.
Qed.

(** Columns of integers that fit in 64 bits are an int64 block: their
    cells are stored as they are. *)
Lemma astype_Int64 v : astype Int64 v = v.
Proof. now destruct v. Qed.

Lemma upcast_int64 dtypes cols :
  (forall c, In c cols -> dtypes (fst c) = Int64) ->
  upcast dtypes cols = cols.
Proof.
  intros H. unfold upcast.
  assert (Hd : common_dtype (map (fun c => dtypes (fst c)) cols) = Int64).
  { unfold common_dtype.
    replace (forallb (dtype_eqb Int64) (map (fun c => dtypes (fst c)) cols))
      with true; [reflexivity|].
    symmetry. apply forallb_forall. intros d Hd.
    apply in_map_iff in Hd as (c & <- & Hc).
    now rewrite (H c Hc). }
  rewrite Hd. unfold upcast_to.
  rewrite <- (map_id cols) at 2. apply map_ext. intros [l vs]. cbn [fst snd].
  f_equal. rewrite <- (map_id vs) at 2. apply map_ext, astype_Int64.
Qed.

Lemma flat_map_length_const {A B} (f : A -> list B) l r :
  (forall a, In a l -> List.length (f a) = r) ->
  List.length (flat_map f l) = (List.length l * r)%nat.
Proof.
  induction l as [|a l IH]; intros H; simpl; [reflexivity|].
  rewrite length_app, (H a) by now left.
  rewrite IH; [reflexivity|]. intros; apply H; now right.
Qed.

Lemma filter_mask_length {A B} mask : forall (l1 : list A) (l2 : list B),
  List.length l1 = List.length l2 ->
  List.length (filter_mask mask l1) = List.length (filter_mask mask l2).
Proof.
  induction mask as [|b mask IH]; intros l1 l2 H; [reflexivity|].
  destruct l1, l2; try discriminate; [reflexivity|].
  simpl in H. injection H as H. simpl.
  destruct b; simpl; auto.
Qed.

Lemma is_key_spec keys c : is_key keys c = true <-> In (PyStr c) keys.
Proof.
  unfold is_key. rewrite existsb_exists. split.
  - intros (k & Hk & Heq). destruct k; try discriminate.
    apply String.eqb_eq in Heq. now subst.
  - intros H. exists (PyStr c). split; [assumption | apply String.eqb_refl].
Qed.

Lemma NoDup_map_PyStr l : NoDup l -> NoDup (map PyStr l).
Proof.
  induction 1 as [|c l Hc _ IH]; simpl; constructor; [|assumption].
  rewrite in_map_iff. intros (c' & Heq & Hin). injection Heq as ->. contradiction.
Qed.

(** The rows the mask keeps are as many as the countries of the selection
    that are keys of the table. *)
Lemma selected_rows_count C keys :
  NoDup keys ->
  List.length (filter (isin C) keys) = List.length (selected_keys C keys).
Proof.
  intros Hnd. rewrite <- (length_map PyStr (selected_keys C keys)).
  apply Permutation_length, NoDup_Permutation.
  - now apply NoDup_filter.
  - apply NoDup_map_PyStr, NoDup_nodup.
  - intros k. rewrite filter_In, isin_spec, in_map_iff. unfold selected_keys.
    split.
    + intros (Hk & c & -> & Hc). exists c. split; [reflexivity|].
      apply nodup_In, filter_In. split; [assumption | now apply is_key_spec].
    + intros (c & <- & Hc). apply nodup_In, filter_In in Hc as (Hc & Hkey).
      apply is_key_spec in Hkey. eauto.
Qed.

(** The three columns of the melted frame being read off the same
    records, a tidy record is made from each melted record. *)
Lemma map_combine3 {A B C D E} (F : B * (C * D) -> E)
    (a : A -> B) (b : A -> C) (c : A -> D) (l : list A) :
  map F (combine (map a l) (combine (map b l) (map c l)))
  = map (fun r => F (a r, (b r, c r))) l.
Proof.
  induction l as [|r l IH]; [reflexivity|]. cbn [map combine]. now rewrite IH.
Qed.

Lemma tidy_frame_map coerce melted :
  tidy_frame coerce melted
  = map (fun r =>
           mkTidy (fst (fst r))
             (astype (numeric_dtype
                        (map (fun r => read_numeric coerce (PyStr (snd (fst r))))
                             melted))
                     (read_numeric coerce (PyStr (snd (fst r)))))
             (astype (numeric_dtype
                        (map (fun r => read_numeric coerce (snd r)) melted))
                     (read_numeric coerce (snd r))))
        melted.
Proof.
  unfold tidy_frame, to_numeric. rewrite !map_map.
  exact (map_combine3 (fun x => mkTidy (fst x) (fst (snd x)) (snd (snd x)))
           _ _ _ melted).
Qed.

Lemma length_tidy_frame coerce melted :
  len (tidy_frame coerce melted) = len melted.
Proof. rewrite tidy_frame_map. unfold len. now rewrite length_map. Qed.

Lemma tidy_frame_nil coerce : tidy_frame coerce [] = [].
Proof. reflexivity. Qed.

(** C5.  For a loaded, rectangular table whose country keys are distinct,
    every country selection [C] and every year range [s <= e] with both
    ends on the year axis: the callback reshapes the selection into
    [|C ∩ keys| * (e - s + 1)] records, whatever pandas reads in a text. *)
Theorem reshape_count coerce df keys ys C s e :
  getitem df "country" = Ok keys -> years_of df = Ok ys -> contiguous ys ->
  rectangular df -> NoDup keys ->
  In s ys -> In e ys -> s <= e ->
  exists records,
    update_graph coerce df ys C [s; e] = Ok records /\
    len records = len (selected_keys C keys) * (e - s + 1).
Proof.
  intros Hg Hy Hc Hrect Hkeys Hs He Hse.
  destruct (loaded_frame df keys ys Hg Hy Hc) as (ycols & -> & HF & Hno & Hnd).
  destruct (contiguous_bounds ys s Hc Hs) as (Hhd & Hsb).
  destruct (contiguous_bounds ys e Hc He) as (_ & Heb).
  pose proof (on_axis_within_reach _ _ _ Hy Hc Hs) as Hrs.
  pose proof (on_axis_within_reach _ _ _ Hy Hc He) as Hre.
  destruct (years_of_bounds _ _ Hy) as (Hlen60 & _).
  unfold update_graph.
  rewrite (mini_df_shape keys ycols ys (hd 0 ys) C s e) by (assumption || lia).
  cbn [bind].
  set (mask := map (isin C) keys).
  set (cols := firstn (Z.to_nat (e - s + 1))
                 (skipn (Z.to_nat (s - hd 0 ys)) (loc ycols mask))).
  assert (Hcols : forall c, In c cols -> In (fst c) (columns ycols) /\
            List.length (snd c) = List.length (filter (isin C) keys)).
  { intros [l vs] Hin. unfold cols in Hin.
    apply In_firstn, In_skipn, In_loc in Hin as (vs0 & Hin & ->). split.
    - apply (in_map fst) in Hin. exact Hin.
    - rewrite <- filter_mask_map. apply filter_mask_length.
      apply (Hrect (l, vs0) ("country"%string, keys)); [now right | now left]. }
  rewrite melt_shape.
  2:{ intros Hin. unfold columns in Hin. apply in_map_iff in Hin as (c & Hl & Hin).
      apply Hcols in Hin as (Hin & _). rewrite Hl in Hin. contradiction. }
  cbn [bind]. eexists. split; [reflexivity|].
  rewrite length_tidy_frame. unfold len.
  rewrite (flat_map_length_const _ _ (List.length (filter (isin C) keys))).
  - rewrite selected_rows_count by assumption.
    assert (Hlen : List.length cols = Z.to_nat (e - s + 1)).
    { unfold cols. rewrite length_firstn, length_skipn, length_loc.
      assert (List.length ycols = List.length ys).
      { rewrite <- (Forall2_length_eq _ _ _ HF). unfold columns.
        now rewrite length_map. }
      unfold len, DataFrame, column in *. lia. }
    rewrite length_upcast, Nat2Z.inj_mul.
    unfold DataFrame, column in *. rewrite Hlen. lia.
  - intros c Hin. apply In_upcast in Hin as (c0 & Hin & _ & Hl0).
    apply Hcols in Hin as (_ & Hl). unfold melt_column.
    rewrite length_map, length_combine, Hl0, Hl. apply Nat.min_id.
Qed.

(** Membership in a list written out, case by case. *)
Ltac in_cases H :=
  simpl in H; repeat (destruct H as [<- | H]); try contradiction.

Lemma reshape_count_witness :
  exists records,
    update_graph coerce_int_literals scenario_df [2000; 2001; 2002]
                 ["Zimbabwe"; "Andorra"; "Zimbabwe"; "Atlantis"]%string
                 [2001; 2002] = Ok records /\
    len records = 2 * 2.
Proof.
  destruct (reshape_count coerce_int_literals scenario_df
              [PyStr "Andorra"; PyStr "Zimbabwe"] [2000; 2001; 2002]
              ["Zimbabwe"; "Andorra"; "Zimbabwe"; "Atlantis"]%string 2001 2002)
    as (records & Hr & Hlen);
    try reflexivity; try (simpl; tauto); try lia.
  - intros c c' Hc Hc'. in_cases Hc; in_cases Hc'; reflexivity.
  - repeat constructor; simpl; intuition discriminate.
  - exists records. split; [exact Hr | exact Hlen].
Defined.

(** ** The order of the records *)

Lemma map_fst_combine {A B C} (F : A -> C) : forall (ks : list A) (vs : list B),
  List.length vs = List.length ks ->
  map (fun iv => F (fst iv)) (combine ks vs) = map F ks.
Proof.
  induction ks as [|k ks IH]; intros vs H; [reflexivity|].
  destruct vs as [|v vs]; [discriminate|].
  simpl in *. f_equal. apply IH. congruence.
Qed.

Section Axes.

Variable coerce : pyval -> pyval.
Variable ks : list pyval.

(** Labels read as integers that fit in 64 bits make an int64 column. *)
Lemma year_column_int64 (melted : list (pyval * string * pyval)) :
  (forall r, In r melted ->
     exists y, coerce (PyStr (snd (fst r))) = PyInt y /\ - 2 ^ 63 <= y < 2 ^ 63) ->
  numeric_dtype (map (fun r => read_numeric coerce (PyStr (snd (fst r)))) melted)
  = Int64.
Proof.
  intros H. unfold numeric_dtype, dtype_of.
  replace (forallb is_int64
             (map (fun r => read_numeric coerce (PyStr (snd (fst r)))) melted))
    with true; [reflexivity|].
  symmetry. apply forallb_forall. intros v Hv.
  apply in_map_iff in Hv as (r & <- & Hr).
  destruct (H r Hr) as (y & Hy & Hb). cbn [read_numeric]. rewrite Hy.
  now apply in_int64_spec.
Qed.

(** Columns read as the years [years], each with one cell per selected
    row, give the product of the years with the selected rows. *)
Lemma tidy_axes cols years :
  Forall2 (fun c y => coerce (PyStr (fst c)) = PyInt y /\
                      List.length (snd c) = List.length ks) cols years ->
  (forall y, In y years -> - 2 ^ 63 <= y < 2 ^ 63) ->
  map (fun r => (year r, country r))
      (tidy_frame coerce (flat_map (melt_column ks) cols))
  = list_prod (map PyInt years) ks.
Proof.
  intros HF Hb. rewrite tidy_frame_map, map_map. cbn [year country].
  rewrite year_column_int64.
  2:{ intros r Hr. apply in_flat_map in Hr as (c & Hc & Hr).
      unfold melt_column in Hr. apply in_map_iff in Hr as (iv & <- & _).
      cbn [fst snd].
      destruct (Forall2_In_l _ _ _ _ HF Hc) as (y & Hy & Hco & _).
      exists y. split; [exact Hco | now apply Hb]. }
  erewrite map_ext;
    [|intros r; rewrite astype_Int64; cbn [read_numeric]; reflexivity].
  clear Hb. induction HF as [|c y cols years [Hy Hl] _ IH]; [reflexivity|].
  cbn [flat_map map list_prod]. rewrite !map_app, IH. f_equal.
  unfold melt_column. rewrite !map_map. cbn [fst snd].
  rewrite Hy. now apply (map_fst_combine (fun k => (PyInt y, k))).
Qed.

Lemma reads_loc mask ycols : forall years,
  Forall2 (fun l y => astype_int l = Ok y) (columns ycols) years ->
  (forall c, In c ycols ->
     (forall y, astype_int (fst c) = Ok y -> coerce (PyStr (fst c)) = PyInt y) /\
     List.length (filter_mask mask (snd c)) = List.length ks) ->
  Forall2 (fun c y => coerce (PyStr (fst c)) = PyInt y /\
                      List.length (snd c) = List.length ks)
          (loc ycols mask) years.
Proof.
  induction ycols as [|c ycols IH]; intros years HF Hc;
    inversion HF; subst; [constructor|].
  cbn [loc map]. constructor.
  - destruct (Hc c (or_introl eq_refl)) as (Hco & Hl). split; auto.
  - apply IH; [assumption|]. intros c' Hin. apply Hc. now right.
Qed.

End Axes.

(** C4, as stated, fails: in the two-country scenario the records do not
    come grouped by country.  Whatever pandas reads in a text, the second
    record is Zimbabwe's for 2000, not Andorra's for 2001. *)
Lemma melt_not_grouped_by_country :
  normalize scenario_raw = Ok scenario_df /\
  ~ exists coerce,
      update_graph coerce scenario_df [2000; 2001; 2002]
                   ["Andorra"; "Zimbabwe"]%string [2000; 2001]
      = Ok [ mkTidy (PyStr "Andorra") (PyInt 2000) (PyInt 1000);
             mkTidy (PyStr "Andorra") (PyInt 2001) (PyInt 1100);
             mkTidy (PyStr "Zimbabwe") (PyInt 2000) (PyInt 500);
             mkTidy (PyStr "Zimbabwe") (PyInt 2001) (PyInt 1500) ].
Proof.
  split; [reflexivity|]. intros (coerce & H).
  apply (f_equal (fun r => match r with
                           | Ok (_ :: r2 :: _) => country r2
                           | _ => PyInt 0
                           end)) in H.
  vm_compute in H. discriminate H.
Qed.

(** C4, amended.  The records come grouped by year, the years ascending,
    and within a year the countries come in the order of the rows of the
    table (not in the order the selection lists them): for a loaded,
    rectangular table whose year labels pandas reads as [int] does, the
    (year, country) pairs of the records are the product of the years
    [s..e] with the selected keys.  In the two-country scenario the records
    are Andorra 2000, Zimbabwe 2000, Andorra 2001, Zimbabwe 2001. *)
Theorem melt_grouped_by_year :
  (forall coerce df keys ys C s e,
      getitem df "country" = Ok keys -> years_of df = Ok ys -> contiguous ys ->
      rectangular df ->
      (forall l y, In l (columns df) -> astype_int l = Ok y ->
                   coerce (PyStr l) = PyInt y) ->
      In s ys -> In e ys -> s <= e ->
      exists records,
        update_graph coerce df ys C [s; e] = Ok records /\
        map (fun r => (year r, country r)) records
        = list_prod (map PyInt (Zseq s (Z.to_nat (e - s + 1))))
                    (filter (isin C) keys)) /\
  (forall coerce C,
      coerce (PyStr "2000") = PyInt 2000 ->
      coerce (PyStr "2001") = PyInt 2001 ->
      C = ["Andorra"; "Zimbabwe"]%string \/ C = ["Zimbabwe"; "Andorra"]%string ->
      update_graph coerce scenario_df [2000; 2001; 2002] C [2000; 2001]
      = Ok [ mkTidy (PyStr "Andorra") (PyInt 2000) (PyInt 1000);
             mkTidy (PyStr "Zimbabwe") (PyInt 2000) (PyInt 500);
             mkTidy (PyStr "Andorra") (PyInt 2001) (PyInt 1100);
             mkTidy (PyStr "Zimbabwe") (PyInt 2001) (PyInt 1500) ]).
Proof.
  split.
  - intros coerce df keys ys C s e Hg Hy Hc Hrect Hco Hs He Hse.
    destruct (loaded_frame df keys ys Hg Hy Hc) as (ycols & -> & HF & Hno & Hnd).
    destruct (contiguous_bounds ys s Hc Hs) as (Hhd & Hsb).
    destruct (contiguous_bounds ys e Hc He) as (_ & Heb).
    pose proof (on_axis_within_reach _ _ _ Hy Hc Hs) as Hrs.
    pose proof (on_axis_within_reach _ _ _ Hy Hc He) as Hre.
    destruct (years_of_bounds _ _ Hy) as (Hlen60 & _).
    unfold update_graph.
    rewrite (mini_df_shape keys ycols ys (hd 0 ys) C s e) by (assumption || lia).
    cbn [bind].
    set (mask := map (isin C) keys).
    set (j := Z.to_nat (s - hd 0 ys)). set (k := Z.to_nat (e - s + 1)).
    assert (HR : Forall2 (fun c y => coerce (PyStr (fst c)) = PyInt y /\
                            List.length (snd c)
                            = List.length (filter (isin C) keys))
                   (firstn k (skipn j (loc ycols mask)))
                   (firstn k (skipn j ys))).
    { apply Forall2_firstn, Forall2_skipn, reads_loc; [assumption|].
      intros c Hin. split.
      - intros y Hy'. apply Hco; [|assumption]. right. now apply in_map.
      - rewrite <- filter_mask_map. apply filter_mask_length.
        apply (Hrect c ("country"%string, keys)); [now right | now left]. }
    rewrite melt_shape.
    2:{ intros Hin. apply Hno.
        replace (columns (firstn k (skipn j (loc ycols mask))))
          with (firstn k (skipn j (columns ycols))) in Hin.
        - eapply In_skipn, In_firstn, Hin.
        - rewrite <- (columns_loc ycols mask). unfold columns.
          now rewrite skipn_map, firstn_map. }
    cbn [bind]. eexists. split; [reflexivity|].
    unfold upcast.
    apply (Forall2_upcast_to (fun l y => coerce (PyStr l) = PyInt y) _
             (common_dtype
                (map (fun c => column_dtype
                                 (("country"%string, keys) :: ycols) (fst c))
                     (firstn k (skipn j (loc ycols mask)))))) in HR.
    assert (Hb : forall y, In y (firstn k (skipn j ys)) -> - 2 ^ 63 <= y < 2 ^ 63).
    { intros y Hin. apply (proj2 (years_of_bounds _ _ Hy)).
      eapply In_skipn, In_firstn, Hin. }
    etransitivity; [exact (tidy_axes coerce _ _ _ HR Hb)|]. do 2 f_equal.
    unfold contiguous in Hc. unfold j, k, len in *.
    set (y0 := hd 0 ys) in *. rewrite Hc. apply range_Zseq; lia.
  - intros coerce C H0 H1 HC. unfold update_graph.
    replace (mini_df scenario_df [2000; 2001; 2002] C [2000; 2001])
      with (Ok [ ("country"%string, [PyStr "Andorra"; PyStr "Zimbabwe"]);
                 ("2000"%string, [PyInt 1000; PyInt 500]);
                 ("2001"%string, [PyInt 1100; PyInt 1500]) ])
      by (destruct HC as [-> | ->]; reflexivity).
    cbn [bind].
    replace (melt (column_dtype scenario_df)
                  [ ("country"%string, [PyStr "Andorra"; PyStr "Zimbabwe"]);
                    ("2000"%string, [PyInt 1000; PyInt 500]);
                    ("2001"%string, [PyInt 1100; PyInt 1500]) ])
      with (Ok [ (PyStr "Andorra", "2000"%string, PyInt 1000);
                 (PyStr "Zimbabwe", "2000"%string, PyInt 500);
                 (PyStr "Andorra", "2001"%string, PyInt 1100);
                 (PyStr "Zimbabwe", "2001"%string, PyInt 1500) ])
      by reflexivity.
    cbn [bind]. rewrite tidy_frame_map. cbn [map fst snd read_numeric].
    rewrite H0, H1. reflexivity.
Qed.

Lemma melt_grouped_by_year_witness :
  exists records,
    update_graph coerce_int_literals scenario_df [2000; 2001; 2002]
                 ["Zimbabwe"; "Andorra"]%string [2001; 2002] = Ok records /\
    map (fun r => (year r, country r)) records
    = [ (PyInt 2001, PyStr "Andorra"); (PyInt 2001, PyStr "Zimbabwe");
        (PyInt 2002, PyStr "Andorra"); (PyInt 2002, PyStr "Zimbabwe") ].
Proof.
  destruct (proj1 melt_grouped_by_year coerce_int_literals scenario_df
              [PyStr "Andorra"; PyStr "Zimbabwe"] [2000; 2001; 2002]
              ["Zimbabwe"; "Andorra"]%string 2001 2002)
    as (records & Hr & Hp);
    try reflexivity; try (simpl; tauto); try lia.
  - intros c c' Hc Hc'. in_cases Hc; in_cases Hc'; reflexivity.
  - intros l y Hin. in_cases Hin; vm_compute; intros H; inversion H; reflexivity.
  - exists records. split; [exact Hr | exact Hp].
Defined.

(** ** The normaliser, case by case *)

(** C1.  A fraction of two digits is not cut to its first digit: the
    normaliser reads the whole fraction as one integer and scales it by
    100, so "2.90k" gives 11000 and "2.95k" gives 11500, where the claim
    has 2900 for both. *)
Theorem value_to_int_two_fraction_digits :
  value_to_int (PyStr "2.90k") = Ok (PyInt 11000) /\
  value_to_int (PyStr "2.95k") = Ok (PyInt 11500) /\
  value_to_int (PyStr "2.9k") = Ok (PyInt 2900).
Proof. repeat split. Qed.

(** With one digit after the point the normaliser does return
    [I * 1000 + digit * 100]. *)
Lemma value_to_int_one_fraction_digit i c :
  decimal i -> is_digit c = true ->
  value_to_int (PyStr (i ++ "." ++ String c "k"))
  = Ok (PyInt (digits_value 0 i * 1000 + digit_val c * 100)).
Proof.
  intros Hi Hc.
  assert (Hf : decimal (String c "")).
  { repeat split; [simpl; now rewrite Hc | discriminate | simpl; unfold int_max_str_digits; lia]. }
  exact (value_to_int_point_k i (String c "") Hi Hf).
Qed.

(** C10.  The literal cases without a point: "5k" gives 5000, "k" gives a
    number equal to 1000 (the float 1000.0), "1234" gives 1234, and an
    integer cell is returned as it is. *)
Theorem value_to_int_literal_cases :
  value_to_int (PyStr "5k") = Ok (PyInt 5000) /\
  (exists v, value_to_int (PyStr "k") = Ok v /\ py_eq_int v 1000 = true) /\
  value_to_int (PyStr "1234") = Ok (PyInt 1234) /\
  (forall z, value_to_int (PyInt z) = Ok (PyInt z)).
Proof.
  split; [reflexivity|]. split; [|split; [reflexivity|]].
  - exists (PyFloat float_1000). split; reflexivity.
  - intros z. reflexivity.
Qed.

Lemma contains_k_short s :
  contains "k" s = true -> (1 <? String.length s)%nat = false -> s = "k"%string.
Proof.
  intros Hk Hl. apply Nat.ltb_ge in Hl.
  destruct s as [|c [|c' s]]; simpl in *; try discriminate; try lia.
  rewrite orb_false_r in Hk. apply Ascii.eqb_eq in Hk. now subst.
Qed.

(** Whatever the normaliser returns is an integer, but for the cell "k",
    which gives the float 1000.0. *)
Lemma value_to_int_returns x v :
  value_to_int x = Ok v ->
  (exists z, v = PyInt z) \/ (x = PyStr "k" /\ v = PyFloat float_1000).
Proof.
  destruct x as [z|f|b|s]; simpl; try discriminate.
  - intros H. injection H as <-. left. eauto.
  - destruct (contains "k" s) eqn:Hk.
    + destruct (contains "." s) eqn:Hp.
      * intros H.
        destruct (py_index _ 0) as [v0|]; [|discriminate]. cbn [bind] in H.
        destruct (py_int v0) as [i|]; [|discriminate]. cbn [bind] in H.
        destruct (py_index _ 1) as [v1|]; [|discriminate]. cbn [bind] in H.
        destruct (py_int v1) as [f|]; [|discriminate]. cbn [bind] in H.
        injection H as <-. left. eauto.
      * destruct (1 <? String.length s)%nat eqn:Hl.
        -- intros H. destruct (py_int _) as [i|]; [|discriminate].
           injection H as <-. left. eauto.
        -- intros H. injection H as <-. right.
           now rewrite (contains_k_short s Hk Hl).
    + intros H. destruct (py_int s) as [i|]; [|discriminate].
      injection H as <-. left. eauto.
Qed.

(** C7.  The bare suffix "k" does not give an integer: the normaliser
    returns the float 1000.0, and the normalised table holds a float in
    that cell. *)
Theorem value_to_int_bare_suffix_float :
  value_to_int (PyStr "k") = Ok (PyFloat float_1000) /\
  (forall z, value_to_int (PyStr "k") <> Ok (PyInt z)) /\
  normalize bare_k_raw = Ok bare_k_df /\
  forallb is_int (year_cells bare_k_df) = false.
Proof.
  repeat split. intros z H. discriminate H.
Qed.

(** ** The default window *)

(** C9.  With three years on the axis the draw 2 is within the bounds of
    [randint], the end index is 3, one past the last index, and building
    the slider raises an IndexError. *)
Theorem slider_default_end_off_axis :
  0 <= 2 <= start_bound [2000; 2001; 2002] /\
  end_of [2000; 2001; 2002] 2 = len [2000; 2001; 2002] /\
  slider_div [2000; 2001; 2002] 2 = Raise IndexError.
Proof.
  repeat split; vm_compute; congruence.
Qed.

(** The end index is on the axis for every draw when the number of years
    is not a multiple of three, and one past the axis for the highest draw
    when it is. *)
Lemma end_of_on_axis years start :
  len years mod 3 <> 0 -> 0 <= start <= start_bound years ->
  0 <= end_of years start < len years.
Proof.
  unfold end_of, start_bound. intros Hm Hs.
  pose proof (len_nonneg years) as Hn.
  pose proof (Z.div_mod (len years) 3 ltac:(lia)) as Hd.
  pose proof (Z.mod_pos_bound (len years) 3 ltac:(lia)) as Hb.
  pose proof (Z.div_mod (2 * len years) 3 ltac:(lia)) as Hd2.
  pose proof (Z.mod_pos_bound (2 * len years) 3 ltac:(lia)) as Hb2.
  pose proof (Z.div_pos (len years) 3 Hn ltac:(lia)).
  lia.
Qed.

Lemma end_of_past_axis years :
  len years mod 3 = 0 -> end_of years (start_bound years) = len years.
Proof.
  unfold end_of, start_bound. intros Hm.
  pose proof (Z.div_mod (len years) 3 ltac:(lia)) as Hd.
  rewrite Hm in Hd.
  replace (2 * len years) with ((2 * (len years / 3)) * 3) by lia.
  rewrite Z.div_mul by lia. lia.
Qed.

Lemma py_index_in_range {A} (l : list A) i :
  0 <= i < len l -> exists a, py_index l i = Ok a /\ In a l.
Proof.
  intros Hi. unfold py_index. fold (len l).
  destruct (i <? 0) eqn:E1; [apply Z.ltb_lt in E1; lia|].
  rewrite E1. destruct (len l <=? i) eqn:E2; [apply Z.leb_le in E2; lia|].
  cbn [orb].
  destruct (nth_error l (Z.to_nat i)) as [a|] eqn:Hn.
  - exists a. split; [reflexivity|]. eapply nth_error_In; eassumption.
  - apply nth_error_None in Hn. unfold len in Hi. lia.
Qed.

Lemma py_index_past_end {A} (l : list A) i :
  len l <= i -> py_index l i = Raise IndexError.
Proof.
  intros Hi. unfold py_index. fold (len l).
  pose proof (len_nonneg l).
  destruct (i <? 0) eqn:E1; [apply Z.ltb_lt in E1; lia|].
  rewrite E1. destruct (len l <=? i) eqn:E2; [reflexivity|].
  apply Z.leb_gt in E2. lia.
Qed.


(** When it is a positive multiple of three, the highest draw raises. *)
Lemma slider_div_raises years :
  0 < len years -> len years mod 3 = 0 ->
  slider_div years (start_bound years) = Raise IndexError.
Proof.
  intros Hpos Hm. unfold slider_div. rewrite (end_of_past_axis years Hm).
  destruct (py_index_in_range years 0) as (lo & -> & _); [lia|].
  destruct (py_index_in_range years (len years - 1)) as (hi & -> & _); [lia|].
  assert (Hst : 0 <= start_bound years < len years).
  { unfold start_bound.
    pose proof (Z.div_mod (len years) 3 ltac:(lia)) as Hd. rewrite Hm in Hd.
    replace (2 * len years) with ((2 * (len years / 3)) * 3) by lia.
    rewrite Z.div_mul by lia. lia. }
  destruct (py_index_in_range years _ Hst) as (a & -> & _).
  cbn [bind]. now rewrite py_index_past_end by lia.
Qed.

(** ** Normalising a table *)

Lemma mapM_id {A} (f : A -> result A) l :
  (forall a, In a l -> f a = Ok a) -> mapM f l = Ok l.
Proof.
  induction l as [|a l IH]; intros H; simpl; [reflexivity|].
  rewrite (H a) by now left. cbn [bind].
  rewrite IH by (intros; apply H; now right). reflexivity.
Qed.

Lemma mapM_Ok_In {A B} (f : A -> result B) l l' b :
  mapM f l = Ok l' -> In b l' -> exists a, In a l /\ f a = Ok b.
Proof.
  rewrite mapM_Forall2. induction 1 as [|x y l l' Hxy _ IH]; intros Hin;
    [contradiction|].
  destruct Hin as [->|Hin].
  - exists x. split; [now left | assumption].
  - destruct (IH Hin) as (a & Ha & Hf). exists a. split; [now right | assumption].
Qed.


Lemma normalize_cells df df' v :
  normalize df = Ok df' -> In v (year_cells df') ->
  exists x, In x (year_cells df) /\ value_to_int x = Ok v.
Proof.
  unfold normalize, year_cells. destruct df as [|c0 cols].
  - intros H. injection H as <-. intros [].
  - destruct (mapM apply_value_to_int cols) as [cols'|] eqn:Hm; [|discriminate].
    cbn [bind]. intros H. injection H as <-. cbn [tl].
    rewrite !in_flat_map. intros (c' & Hc' & Hv).
    destruct (mapM_Ok_In _ _ _ _ Hm Hc') as (c & Hc & Hap).
    unfold apply_value_to_int in Hap.
    destruct (mapM value_to_int (snd c)) as [vs|] eqn:Hvs; [|discriminate].
    cbn [bind] in Hap. injection Hap as <-. cbn [snd] in Hv.
    destruct (mapM_Ok_In _ _ _ _ Hvs Hv) as (x & Hx & Hxv).
    exists x. split; [|assumption]. apply in_flat_map. exists c. auto.
Qed.

(** A table whose year cells are all integers comes back as it is. *)
Lemma normalize_int_cells df :
  forallb is_int (year_cells df) = true -> normalize df = Ok df.
Proof.
  unfold normalize, year_cells. destruct df as [|c0 cols]; [reflexivity|].
  cbn [tl]. intros H. rewrite forallb_forall in H.
  rewrite mapM_id; [reflexivity|].
  intros [l vs] Hc. unfold apply_value_to_int. cbn [fst snd].
  rewrite mapM_id; [reflexivity|].
  intros x Hx. assert (Hi : is_int x = true).
  { apply H, in_flat_map. exists (l, vs). auto. }
  destruct x; try discriminate. reflexivity.
Qed.

(** Normalising twice is normalising once on every table without a bare
    "k" in a year column. *)
Lemma normalize_twice df df' :
  ~ In (PyStr "k") (year_cells df) ->
  normalize df = Ok df' -> normalize df' = Ok df'.
Proof.
  intros Hk Hn. apply normalize_int_cells, forallb_forall. intros v Hv.
  destruct (normalize_cells df df' v Hn Hv) as (x & Hx & Hxv).
  destruct (value_to_int_returns x v Hxv) as [(z & ->) | (-> & _)];
    [reflexivity | contradiction].
Qed.

(** C8.  Normalising is not idempotent on a table with a bare "k": the
    first pass succeeds and leaves the float 1000.0 in that cell, and the
    second pass, applied to the table the first one returned, raises a
    TypeError on it. *)
Theorem normalize_twice_raises :
  normalize bare_k_raw = Ok bare_k_df /\
  normalize bare_k_df = Raise TypeError /\
  (forall z, value_to_int (PyInt z) = Ok (PyInt z)).
Proof. repeat split. Qed.

(** ** [int] and the grammar of integer literals *)

Lemma append_nil_r x : (x ++ "")%string = x.
Proof. induction x; simpl; congruence. Qed.

Lemma lstrip_spec x :
  exists l, x = (l ++ lstrip x)%string /\ all_space l = true.
Proof.
  induction x as [|c x (l & Hx & Hl)]; [now exists ""%string|].
  simpl. destruct (is_space c) eqn:Hc.
  - exists (String c l). simpl. rewrite Hc. split; [now f_equal | assumption].
  - now exists ""%string.
Qed.

Lemma lstrip_app l y :
  all_space l = true -> lstrip (l ++ y) = lstrip y.
Proof.
  induction l as [|c l IH]; simpl; [reflexivity|].
  intros H. apply andb_prop in H as [Hc Hl]. now rewrite Hc, IH.
Qed.

Lemma split_sign_spec y neg body :
  split_sign y = (neg, body) -> exists sg, y = (sg ++ body)%string /\ sign sg.
Proof.
  unfold split_sign, sign. destruct y as [|c y].
  - intros H. injection H as _ <-. exists ""%string. auto.
  - destruct (Ascii.eqb_spec c "-") as [->|].
    + intros H. injection H as _ <-. exists "-"%string. auto.
    + destruct (Ascii.eqb_spec c "+") as [->|].
      * intros H. injection H as _ <-. exists "+"%string. auto.
      * intros H. injection H as _ <-. exists ""%string. auto.
Qed.

Lemma digit_groups_head b k :
  digit_groups b k ->
  exists c b', b = String c b' /\ is_digit c = true /\ (1 <= k)%nat.
Proof.
  destruct 1; eexists _, _; repeat split; try eassumption; lia.
Qed.

(** What a successful scan has read. *)
Lemma scan_digits_sound x : forall prev acc n v d r,
  scan_digits x prev acc n = Some (v, d, r) ->
  (exists b k, x = (b ++ r)%string /\ digit_groups b k /\ d = (n + k)%nat) \/
  (prev = false /\
   ((x = r /\ d = n) \/
    (exists b k, x = String "_" (b ++ r) /\ digit_groups b k /\ d = (n + k)%nat))).
Proof.
  induction x as [|c x IH]; intros prev acc n v d r H; simpl in H.
  - destruct prev; [discriminate|]. injection H as _ <- <-. right. auto.
  - destruct (is_digit c) eqn:Hc.
    + left. destruct (IH _ _ _ _ _ _ H)
        as [(b & k & -> & Hb & ->) | (_ & [(-> & ->) | (b & k & -> & Hb & ->)])].
      * exists (String c b), (S k). repeat split; [now constructor | lia].
      * exists (String c ""), 1%nat. repeat split; [now constructor | lia].
      * exists (String c (String "_" b)), (S k).
        repeat split; [now constructor | lia].
    + destruct (Ascii.eqb_spec c "_") as [->|Hu].
      * destruct prev; [discriminate|]. right. split; [reflexivity|]. right.
        destruct (IH _ _ _ _ _ _ H)
          as [(b & k & -> & Hb & ->) | (Hf & _)]; [|discriminate].
        exists b, k. auto.
      * destruct prev; [discriminate|]. injection H as _ <- <-. right. auto.
Qed.

Lemma all_space_stops_scan r : all_space r = true -> stops_scan r.
Proof.
  destruct r as [|c r]; simpl; [trivial|].
  intros H. apply andb_prop in H as [Hc _]. split.
  - destruct (is_digit c) eqn:Hd; [|reflexivity].
    apply is_digit_not_space in Hd. congruence.
  - destruct (Ascii.eqb_spec c "_") as [->|]; [discriminate | reflexivity].
Qed.

Lemma scan_digits_stop r acc n :
  stops_scan r -> scan_digits r false acc n = Some (acc, n, r).
Proof.
  destruct r as [|c r]; simpl; [reflexivity|].
  intros [-> ->]. reflexivity.
Qed.

Lemma scan_digits_complete b k r :
  digit_groups b k -> stops_scan r ->
  forall prev acc n,
  exists v, scan_digits (b ++ r) prev acc n = Some (v, (n + k)%nat, r).
Proof.
  intros Hb Hr. induction Hb as [c Hc | c x k Hc _ IH | c x k Hc _ IH];
    intros prev acc n; cbn [append scan_digits]; rewrite Hc.
  - rewrite scan_digits_stop by assumption.
    replace (n + 1)%nat with (S n) by lia. eauto.
  - destruct (IH false (10 * acc + digit_val c) (S n)) as (v & ->).
    replace (S n + k)%nat with (n + S k)%nat by lia. eauto.
  - change (is_digit "_") with false. change (Ascii.eqb "_" "_") with true.
    cbv iota.
    destruct (IH true (10 * acc + digit_val c) (S n)) as (v & ->).
    replace (S n + k)%nat with (n + S k)%nat by lia. eauto.
Qed.

(** [int] succeeds on the integer literals, and on them only. *)
Lemma py_int_ok_iff x : (exists z, py_int x = Ok z) <-> int_literal x.
Proof.
  split.
  - intros (z & H). unfold py_int in H.
    destruct (lstrip_spec x) as (l & Hx & Hl).
    destruct (split_sign (lstrip x)) as [neg body] eqn:Hsg.
    destruct (split_sign_spec _ _ _ Hsg) as (sg & Hy & Hs).
    destruct (leading_underscore body) eqn:Hu; [discriminate|].
    destruct (scan_digits body false 0 0) as [[[v d] r]|] eqn:Hscan;
      [|discriminate].
    destruct (d =? 0)%nat eqn:Hd0; [discriminate|].
    destruct (int_max_str_digits <? d)%nat eqn:Hmax; [discriminate|].
    destruct (all_space r) eqn:Hr; [|discriminate].
    apply Nat.eqb_neq in Hd0. apply Nat.ltb_ge in Hmax.
    destruct (scan_digits_sound _ _ _ _ _ _ _ Hscan)
      as [(b & k & -> & Hb & ->)
         | (_ & [(_ & ->) | (b & k & -> & _)])];
      [|congruence|discriminate].
    exists l, sg, b, r, k. rewrite Hx, Hy. repeat split; assumption.
  - intros (l & sg & body & r & n & -> & Hl & Hs & Hb & Hn & Hr).
    destruct (digit_groups_head _ _ Hb) as (c & b' & -> & Hc & Hn1).
    unfold py_int. rewrite (lstrip_app l _ Hl).
    assert (Hsg : exists neg,
               split_sign (lstrip (sg ++ String c b' ++ r))
               = (neg, (String c b' ++ r)%string)).
    { destruct Hs as [-> | [-> | ->]]; simpl.
      - rewrite (is_digit_not_space c Hc), (split_sign_digit c _ Hc). eauto.
      - eauto.
      - eauto. }
    destruct Hsg as (neg & ->).
    unfold leading_underscore. cbn [append].
    rewrite (is_digit_neq c "_" Hc) by reflexivity.
    destruct (scan_digits_complete _ _ r Hb (all_space_stops_scan r Hr) false 0 0%nat)
      as (v & Hscan).
    cbn [append] in Hscan. rewrite Hscan. cbn [Nat.add].
    replace (n =? 0)%nat with false by (symmetry; apply Nat.eqb_neq; lia).
    replace (int_max_str_digits <? n)%nat with false
      by (symmetry; apply Nat.ltb_ge; exact Hn).
    rewrite Hr. eauto.
Qed.

Lemma bind_ok {A B} (r : result A) (k : A -> result B) b :
  bind r k = Ok b <-> exists a, r = Ok a /\ k a = Ok b.
Proof.
  destruct r as [a|e]; simpl.
  - split; [eauto | intros (a' & Ha & Hk); congruence].
  - split; [discriminate | intros (a' & Ha & _); discriminate].
Qed.




Lemma digit_groups_all_digits d :
  all_digits d = true -> d <> EmptyString ->
  digit_groups d (String.length d).
Proof.
  induction d as [|c d IH]; [congruence|]. simpl. intros H _.
  apply andb_prop in H as [Hc Hd]. destruct d as [|c' d'].
  - now constructor.
  - apply dg_digit; [assumption|]. apply IH; [assumption | discriminate].
Qed.

Lemma decimal_int_literal d : decimal d -> int_literal d.
Proof.
  intros (Hd & Hne & Hlen).
  exists ""%string, ""%string, d, ""%string, (String.length d).
  cbn [append]. rewrite append_nil_r. unfold sign.
  repeat split; auto using digit_groups_all_digits.
Qed.


Example float_2_5_value :
  float_eq_int float_2_5 2 = false /\ float_eq_int float_2_5 3 = false /\
  SFcompare float_2_5 (SFdiv 53 1024 (binary_normalize 53 1024 5 0 false)
                                     (binary_normalize 53 1024 2 0 false))
  = Some Eq.
Proof. repeat split. Qed.



(** * Further properties of the code *)

Example format_int_examples :
  format_int 0 = "0"%string /\ format_int 1800 = "1800"%string /\
  format_int (-25) = "-25"%string /\ format_int 1000000 = "1000000"%string.
Proof. repeat split. Qed.

Example slider_marks_example :
  slider_marks (Zseq 1800 301)
  = Ok [ (1800, "1800"%string); (1825, "1825"%string); (1850, "1850"%string);
         (1875, "1875"%string); (1900, "1900"%string); (1925, "1925"%string);
         (1950, "1950"%string); (1975, "1975"%string); (2000, "2000"%string);
         (2025, "2025"%string); (2050, "2050"%string); (2075, "2075"%string) ].
Proof. reflexivity. Qed.

(** ** The normaliser: what it raises and what it reads *)

Lemma py_int_raises s e : py_int s = Raise e -> e = ValueError.
Proof.
  unfold py_int. destruct (split_sign (lstrip s)) as [neg body].
  destruct (leading_underscore body); [congruence|].
  destruct (scan_digits body false 0 0) as [[[v d] r]|]; [|congruence].
  destruct (d =? 0)%nat; [congruence|].
  destruct (int_max_str_digits <? d)%nat; [congruence|].
  destruct (all_space r); congruence.
Qed.

Lemma contains_remove_char c d x :
  Ascii.eqb c d = false -> contains c (remove_char d x) = contains c x.
Proof.
  intros Hcd. induction x as [|a x IH]; simpl; [reflexivity|].
  destruct (Ascii.eqb_spec a d) as [->|Had].
  - rewrite IH. rewrite Ascii.eqb_sym, Hcd. reflexivity.
  - simpl. now rewrite IH.
Qed.

(** A text that holds the separator splits into two fields at least. *)
Lemma split_two_fields c x :
  contains c x = true -> exists a b rest, split c x = a :: b :: rest.
Proof.
  induction x as [|d x IH]; simpl; [discriminate|].
  destruct (Ascii.eqb d c) eqn:Hd; simpl.
  - intros _. destruct x as [|d' x']; simpl.
    + eauto.
    + destruct (Ascii.eqb d' c); [eauto|].
      destruct (split c x') as [|w ws]; eauto.
  - intros H. destruct (IH H) as (a & b & rest & ->). eauto.
Qed.

(** X1.  The normaliser raises a TypeError on a cell that is neither an
    integer nor a text, a ValueError on a text it cannot read, and
    nothing else: the subscript [vals[1]] of the decimal branch never
    fails.  So normalising a table raises one of these two, or returns. *)
Theorem value_to_int_only_raises :
  (forall x e, value_to_int x = Raise e ->
     match x with
     | PyInt _ => False
     | PyFloat _ | PyBool _ => e = TypeError
     | PyStr _ => e = ValueError
     end) /\
  (forall df e, normalize df = Raise e -> e = TypeError \/ e = ValueError).
Proof.
  assert (Hcell : forall x e, value_to_int x = Raise e ->
            match x with
            | PyInt _ => False
            | PyFloat _ | PyBool _ => e = TypeError
            | PyStr _ => e = ValueError
            end).
  { intros [z|f|b|s] e; simpl; try congruence.
    destruct (contains "k" s) eqn:Hk.
    - destruct (contains "." s) eqn:Hp.
      + assert (Hp' : contains "." (remove_char "k" s) = true)
          by now rewrite contains_remove_char.
        destruct (split_two_fields _ _ Hp') as (a & b & rest & ->).
        rewrite py_index_0, py_index_1. cbn [bind].
        destruct (py_int a) as [i|e1] eqn:Ha; cbn [bind].
        * destruct (py_int b) as [j|e2] eqn:Hb; cbn [bind]; [discriminate|].
          intros H. injection H as <-. eapply py_int_raises; eassumption.
        * intros H. injection H as <-. eapply py_int_raises; eassumption.
      + destruct (1 <? String.length s)%nat; [|discriminate].
        destruct (py_int _) as [i|e1] eqn:Ha; cbn [bind]; [discriminate|].
        intros H. injection H as <-. eapply py_int_raises; eassumption.
    - destruct (py_int s) as [i|e1] eqn:Ha; cbn [bind]; [discriminate|].
      intros H. injection H as <-. eapply py_int_raises; eassumption. }
  split; [exact Hcell|].
  assert (Hlist : forall vs e, mapM value_to_int vs = Raise e ->
                               e = TypeError \/ e = ValueError).
  { induction vs as [|x vs IH]; intros e; simpl; [discriminate|].
    destruct (value_to_int x) as [v|e1] eqn:Hx; cbn [bind].
    - destruct (mapM value_to_int vs) as [ws|e2]; cbn [bind]; [discriminate|].
      intros H. injection H as <-. now apply IH.
    - intros H. injection H as <-. apply Hcell in Hx.
      destruct x; try contradiction; auto. }
  intros [|c0 cols] e; simpl; [discriminate|].
  assert (Hcols : forall cs e', mapM apply_value_to_int cs = Raise e' ->
                                e' = TypeError \/ e' = ValueError).
  { induction cs as [|c cs IH]; intros e'; simpl; [discriminate|].
    unfold apply_value_to_int at 1.
    destruct (mapM value_to_int (snd c)) as [vs|e1] eqn:Hc; cbn [bind].
    - destruct (mapM apply_value_to_int cs) as [ws|e2]; cbn [bind];
        [discriminate|].
      intros H. injection H as <-. now apply IH.
    - intros H. injection H as <-. eapply Hlist; eassumption. }
  destruct (mapM apply_value_to_int cols) as [cols'|e1] eqn:Hm; cbn [bind];
    [discriminate|].
  intros H. injection H as <-. eapply Hcols; eassumption.
Qed.

Lemma value_to_int_only_raises_witness :
  (exists e, value_to_int (PyStr "1.x.k") = Raise e /\ e = ValueError) /\
  (exists e, normalize float_raw = Raise e /\ (e = TypeError \/ e = ValueError)).
Proof.
  split.
  - exists ValueError. split; [reflexivity|].
    exact (proj1 value_to_int_only_raises (PyStr "1.x.k") ValueError eq_refl).
  - exists TypeError. split; [reflexivity|].
    exact (proj2 value_to_int_only_raises float_raw TypeError eq_refl).
Defined.

Lemma py_int_neg_decimal x :
  decimal x -> py_int (String "-" x) = Ok (- digits_value 0 x).
Proof.
  intros (Hd & Hne & Hlen). unfold py_int.
  destruct x as [|c x]; [congruence|].
  pose proof Hd as Hd'. simpl in Hd'. apply andb_prop in Hd' as [Hc _].
  change (lstrip (String "-" (String c x))) with (String "-" (String c x)).
  change (split_sign (String "-" (String c x))) with (true, String c x).
  unfold leading_underscore. rewrite (is_digit_neq c "_" Hc) by reflexivity.
  rewrite scan_digits_all by assumption.
  cbn [Nat.add].
  replace (String.length (String c x) =? 0)%nat with false by reflexivity.
  replace (int_max_str_digits <? String.length (String c x))%nat with false
    by (symmetry; apply Nat.ltb_ge; exact Hlen).
  reflexivity.
Qed.

(** X2.  On a text [I.Fk] the normaliser returns [I * 1000 + F * 100], the
    whole of [F] read as one integer; a minus sign in front applies to the
    thousands only, so [-I.Fk] gives [- I * 1000 + F * 100] (and "-1.5k"
    gives -500). *)
Theorem value_to_int_point_formula i f :
  decimal i -> decimal f ->
  value_to_int (PyStr (i ++ "." ++ f ++ "k"))
  = Ok (PyInt (digits_value 0 i * 1000 + digits_value 0 f * 100)) /\
  value_to_int (PyStr ("-" ++ i ++ "." ++ f ++ "k"))
  = Ok (PyInt (- digits_value 0 i * 1000 + digits_value 0 f * 100)).
Proof.
  intros Hi Hf. split; [now apply value_to_int_point_k|].
  pose proof Hi as (Hdi & _). pose proof Hf as (Hdf & _).
  assert (Hki : contains "k" i = false)
    by (apply contains_digits; [reflexivity | assumption]).
  assert (Hkf : contains "k" f = false)
    by (apply contains_digits; [reflexivity | assumption]).
  assert (Hpi : contains "." i = false)
    by (apply contains_digits; [reflexivity | assumption]).
  assert (Hpf : contains "." f = false)
    by (apply contains_digits; [reflexivity | assumption]).
  change (PyStr ("-" ++ i ++ "." ++ f ++ "k"))
    with (PyStr (String "-" (i ++ String "." (f ++ "k")))).
  set (t := String "-" (i ++ String "." (f ++ "k"))).
  assert (Hk : contains "k" t = true).
  { unfold t. cbn [contains]. rewrite contains_app. cbn [contains].
    rewrite contains_app. simpl. now rewrite !orb_true_r. }
  assert (Hp : contains "." t = true).
  { unfold t. cbn [contains]. rewrite contains_app. cbn [contains].
    change (Ascii.eqb "." ".") with true. now rewrite !orb_true_r. }
  assert (Hr : remove_char "k" t = (String "-" i ++ String "." f)%string).
  { unfold t. cbn [remove_char]. change (Ascii.eqb "-" "k") with false. cbv iota.
    rewrite remove_char_app, (remove_char_absent "k" i Hki).
    cbn [remove_char]. change (Ascii.eqb "." "k") with false. cbv iota.
    rewrite remove_char_app, (remove_char_absent "k" f Hkf).
    simpl. do 3 f_equal. apply append_nil_r. }
  unfold value_to_int. rewrite Hk, Hp, Hr.
  rewrite split_app by (simpl; exact Hpi).
  rewrite (split_absent "." f Hpf), py_index_0, py_index_1. cbn [bind].
  rewrite (py_int_neg_decimal i Hi). cbn [bind].
  now rewrite (py_int_decimal f Hf).
Qed.

Lemma value_to_int_point_formula_witness :
  value_to_int (PyStr "10.25k") = Ok (PyInt 12500) /\
  value_to_int (PyStr "-10.25k") = Ok (PyInt (-7500)).
Proof.
  apply (value_to_int_point_formula "10" "25");
    (repeat split; [discriminate | unfold int_max_str_digits; simpl; lia]).
Defined.

(** X3.  The suffix counts wherever it stands: for a text of digits [D],
    both [Dk] and [kD] give [D * 1000], and [D] alone gives [D]. *)
Theorem value_to_int_suffix_anywhere d :
  decimal d ->
  value_to_int (PyStr (d ++ "k")) = Ok (PyInt (digits_value 0 d * 1000)) /\
  value_to_int (PyStr ("k" ++ d)) = Ok (PyInt (digits_value 0 d * 1000)) /\
  value_to_int (PyStr d) = Ok (PyInt (digits_value 0 d)).
Proof.
  intros Hd. split; [now apply value_to_int_k|].
  split; [|now apply value_to_int_decimal].
  pose proof Hd as (Hdd & Hne & _).
  unfold value_to_int. cbn [append contains].
  change (Ascii.eqb "k" "k") with true. cbn [orb].
  change (Ascii.eqb "k" ".") with false. cbn [orb].
  rewrite (contains_digits "." d) by (reflexivity || assumption).
  assert (Hl : (1 <? String.length (String "k" d))%nat = true).
  { apply Nat.ltb_lt. destruct d; [congruence | simpl; lia]. }
  rewrite Hl. cbn [remove_char]. change (Ascii.eqb "k" "k") with true. cbv iota.
  rewrite (remove_char_absent "k" d)
    by (apply contains_digits; [reflexivity | assumption]).
  now rewrite (py_int_decimal d Hd).
Qed.

Lemma value_to_int_suffix_anywhere_witness :
  value_to_int (PyStr "12k") = Ok (PyInt 12000) /\
  value_to_int (PyStr "k12") = Ok (PyInt 12000) /\
  value_to_int (PyStr "12") = Ok (PyInt 12).
Proof.
  apply (value_to_int_suffix_anywhere "12").
  repeat split; [discriminate | unfold int_max_str_digits; simpl; lia].
Defined.

Lemma all_chars_app p x y :
  all_chars p (x ++ y) = all_chars p x && all_chars p y.
Proof.
  induction x as [|c x IH]; simpl; [reflexivity|].
  now rewrite IH, andb_assoc.
Qed.

Lemma all_space_literal x :
  all_space x = true -> all_chars literal_char x = true.
Proof.
  induction x as [|c x IH]; simpl; [reflexivity|].
  intros H. apply andb_prop in H as [Hc Hx].
  unfold literal_char at 1. rewrite Hc, IH by assumption.
  now rewrite !orb_true_r.
Qed.

Lemma digit_groups_literal b k :
  digit_groups b k -> all_chars literal_char b = true.
Proof.
  induction 1 as [c Hc | c x k Hc _ IH | c x k Hc _ IH]; simpl;
    unfold literal_char at 1; rewrite Hc; simpl; auto.
Qed.

Lemma int_literal_chars x : int_literal x -> all_chars literal_char x = true.
Proof.
  intros (l & sg & body & r & n & -> & Hl & Hs & Hb & _ & Hr).
  rewrite !all_chars_app, (all_space_literal l Hl), (all_space_literal r Hr),
    (digit_groups_literal _ _ Hb).
  destruct Hs as [-> | [-> | ->]]; reflexivity.
Qed.

(** X4.  A text without the suffix that holds any character other than a
    digit, a blank, a sign or an underscore makes the normaliser raise a
    ValueError: so do a number with a point ("2.9") and the suffixes the
    code does not know, upper-case "K" and "M" among them. *)
Theorem value_to_int_foreign_character s :
  contains "k" s = false -> all_chars literal_char s = false ->
  value_to_int (PyStr s) = Raise ValueError.
Proof.
  intros Hk Hc. unfold value_to_int. rewrite Hk.
  destruct (py_int s) as [z|e] eqn:Hz; cbn [bind].
  - assert (L : int_literal s) by (apply py_int_ok_iff; eauto).
    apply int_literal_chars in L. congruence.
  - now rewrite (py_int_raises s e Hz).
Qed.

Lemma value_to_int_foreign_character_witness :
  value_to_int (PyStr "2.9") = Raise ValueError /\
  value_to_int (PyStr "5K") = Raise ValueError /\
  value_to_int (PyStr "5.2M") = Raise ValueError.
Proof.
  split; [|split].
  - exact (value_to_int_foreign_character "2.9" eq_refl eq_refl).
  - exact (value_to_int_foreign_character "5K" eq_refl eq_refl).
  - exact (value_to_int_foreign_character "5.2M" eq_refl eq_refl).
Defined.

(** ** Normalising a table: what it keeps *)

Lemma apply_value_to_int_shape c c' :
  apply_value_to_int c = Ok c' ->
  fst c' = fst c /\ List.length (snd c') = List.length (snd c).
Proof.
  unfold apply_value_to_int.
  destruct (mapM value_to_int (snd c)) as [vs|] eqn:Hm; [|discriminate].
  cbn [bind]. intros H. injection H as <-. split; [reflexivity|].
  apply mapM_Forall2, Forall2_length_eq in Hm. now symmetry.
Qed.

(** X5.  Normalising keeps the shape of the table: the labels and their
    order, the first (country) column as it is, and the number of cells of
    every column; so the years read off the labels are the same before and
    after. *)
Theorem normalize_keeps_shape df df' :
  normalize df = Ok df' ->
  columns df' = columns df /\
  hd_error df' = hd_error df /\
  Forall2 (fun c c' => List.length (snd c') = List.length (snd c)) df df' /\
  years_of df' = years_of df.
Proof.
  intros H.
  assert (Hshape : columns df' = columns df /\ hd_error df' = hd_error df /\
            Forall2 (fun c c' => List.length (snd c') = List.length (snd c)) df df').
  { unfold normalize in H. destruct df as [|c0 cols].
    - injection H as <-. repeat split. constructor.
    - destruct (mapM apply_value_to_int cols) as [cols'|] eqn:Hm; [|discriminate].
      cbn [bind] in H. injection H as <-.
      apply mapM_Forall2 in Hm.
      split; [|split; [reflexivity|]].
      + cbn [columns map]. f_equal.
        induction Hm as [|c c' cols cols' Hc _ IH]; [reflexivity|].
        cbn [map]. apply apply_value_to_int_shape in Hc as (-> & _).
        now f_equal.
      + constructor; [reflexivity|].
        induction Hm as [|c c' cols cols' Hc _ IH]; constructor; [|exact IH].
        now apply apply_value_to_int_shape in Hc. }
  destruct Hshape as (Hc & Hh & HF). repeat split; try assumption.
  unfold years_of. now rewrite Hc.
Qed.

Lemma normalize_keeps_shape_witness :
  columns scenario_df = columns scenario_raw /\
  years_of scenario_df = years_of scenario_raw.
Proof.
  destruct (normalize_keeps_shape scenario_raw scenario_df eq_refl)
    as (Hc & _ & _ & Hy).
  split; [exact Hc | exact Hy].
Defined.

(** X6.  After a successful normalisation of a table without a bare "k" in
    a year column, every cell of every year column is an integer. *)
Theorem normalize_gives_integers df df' :
  normalize df = Ok df' -> ~ In (PyStr "k") (year_cells df) ->
  forallb is_int (year_cells df') = true.
Proof.
  intros Hn Hk. apply forallb_forall. intros v Hv.
  destruct (normalize_cells df df' v Hn Hv) as (x & Hx & Hxv).
  destruct (value_to_int_returns x v Hxv) as [(z & ->) | (-> & _)];
    [reflexivity | contradiction].
Qed.

Lemma normalize_gives_integers_witness :
  forallb is_int (year_cells scenario_df) = true.
Proof.
  apply (normalize_gives_integers scenario_raw scenario_df eq_refl).
  intros H. simpl in H. intuition discriminate.
Defined.

(** X7.  A table whose year cells are all integers comes back from the
    normaliser as it is; and on every table without a bare "k" in a year
    column, normalising what a first normalisation returned changes
    nothing. *)
Theorem normalize_fixed_points :
  (forall df, forallb is_int (year_cells df) = true -> normalize df = Ok df) /\
  (forall df df', ~ In (PyStr "k") (year_cells df) ->
                  normalize df = Ok df' -> normalize df' = Ok df').
Proof.
  split; [exact normalize_int_cells | exact normalize_twice].
Qed.

Lemma normalize_fixed_points_witness :
  normalize scenario_df = Ok scenario_df.
Proof.
  apply (proj2 normalize_fixed_points scenario_raw scenario_df);
    [|reflexivity].
  intros H. simpl in H. intuition discriminate.
Defined.

(** ** The slider *)

Lemma nth_error_Zseq n : forall a i,
  (i < n)%nat -> nth_error (Zseq a n) i = Some (a + Z.of_nat i).
Proof.
  induction n as [|n IH]; intros a i Hi; [lia|].
  destruct i as [|i]; simpl.
  - f_equal. lia.
  - rewrite IH by lia. f_equal. lia.
Qed.

Lemma py_index_Zseq a n i :
  0 <= i < Z.of_nat n -> py_index (Zseq a n) i = Ok (a + i).
Proof.
  intros Hi. unfold py_index. rewrite Zseq_length.
  destruct (i <? 0) eqn:E1; [apply Z.ltb_lt in E1; lia|]. rewrite E1.
  destruct (Z.of_nat n <=? i) eqn:E2; [apply Z.leb_le in E2; lia|].
  cbn [orb]. rewrite nth_error_Zseq by lia. f_equal. lia.
Qed.

Lemma py_index_ok_bounds {A} (l : list A) i a :
  0 <= i -> py_index l i = Ok a -> i < len l.
Proof.
  intros Hi H. destruct (Z.lt_ge_cases i (len l)) as [|Hge]; [assumption|].
  rewrite py_index_past_end in H by assumption. discriminate.
Qed.

(** X8.  With consecutive years whose number is not a multiple of three,
    every draw of [randint] builds the slider: its bounds are the first and
    the last year, and its default range starts [start] years after the
    first year, spans [floor(n/3)] years and lies within the bounds. *)
Theorem slider_default_window ys start :
  contiguous ys -> len ys mod 3 <> 0 -> 0 <= start <= start_bound ys ->
  exists sl,
    slider_div ys start = Ok sl /\
    slider_min sl = hd 0 ys /\
    slider_max sl = hd 0 ys + len ys - 1 /\
    slider_value sl = (hd 0 ys + start, hd 0 ys + start + len ys / 3) /\
    slider_min sl <= fst (slider_value sl) <= snd (slider_value sl) /\
    snd (slider_value sl) <= slider_max sl.
Proof.
  intros Hc Hm Hs. pose proof (end_of_on_axis ys start Hm Hs) as He.
  pose proof (len_nonneg ys) as Hn.
  pose proof (Z.div_pos (len ys) 3 Hn ltac:(lia)) as Hd.
  unfold end_of in He. unfold slider_div, end_of.
  unfold contiguous in Hc. set (y0 := hd 0 ys) in *. unfold len in *.
  set (n := List.length ys) in *. rewrite Hc.
  rewrite !py_index_Zseq by lia.
  cbn [bind]. eexists. split; [reflexivity|]. cbn.
  repeat split; try lia. f_equal; lia.
Qed.

Lemma slider_default_window_witness :
  exists sl,
    slider_div (Zseq 1800 301) 150 = Ok sl /\
    slider_value sl = (1950, 2050).
Proof.
  destruct (slider_default_window (Zseq 1800 301) 150)
    as (sl & Hsl & _ & _ & Hv & _).
  - apply contiguous_Zseq.
  - vm_compute. discriminate.
  - vm_compute. split; discriminate.
  - exists sl. split; [exact Hsl | exact Hv].
Defined.

(** X9.  When the number of years is a positive multiple of three, the
    slider is built for every draw but the highest one, [floor(2n/3)],
    for which [years[end]] raises an IndexError. *)
Theorem slider_fails_at_top_draw_only ys start :
  0 < len ys -> len ys mod 3 = 0 -> 0 <= start <= start_bound ys ->
  (start < start_bound ys -> exists sl, slider_div ys start = Ok sl) /\
  (start = start_bound ys -> slider_div ys start = Raise IndexError).
Proof.
  intros Hpos Hm Hs. split.
  - intros Hlt.
    assert (He : 0 <= end_of ys start < len ys).
    { pose proof (end_of_past_axis ys Hm) as Hp. unfold end_of in *.
      pose proof (Z.div_pos (len ys) 3 ltac:(lia) ltac:(lia)). lia. }
    assert (Hst : 0 <= start < len ys).
    { unfold end_of in He. pose proof (Z.div_pos (len ys) 3 ltac:(lia) ltac:(lia)).
      lia. }
    unfold slider_div.
    destruct (py_index_in_range ys 0) as (lo & -> & _); [lia|].
    destruct (py_index_in_range ys (len ys - 1)) as (hi & -> & _); [lia|].
    destruct (py_index_in_range ys start Hst) as (a & -> & _).
    destruct (py_index_in_range ys (end_of ys start) He) as (b & -> & _).
    cbn [bind]. eauto.
  - intros ->. now apply slider_div_raises.
Qed.

Lemma slider_fails_at_top_draw_only_witness :
  (exists sl, slider_div [2000; 2001; 2002; 2003; 2004; 2005] 3 = Ok sl) /\
  slider_div [2000; 2001; 2002; 2003; 2004; 2005] 4 = Raise IndexError.
Proof.
  split.
  - apply (proj1 (slider_fails_at_top_draw_only
                    [2000; 2001; 2002; 2003; 2004; 2005] 3
                    eq_refl eq_refl (conj (Zle_bool_imp_le 0 3 eq_refl)
                                          (Zle_bool_imp_le 3 4 eq_refl)))).
    reflexivity.
  - apply (proj2 (slider_fails_at_top_draw_only
                    [2000; 2001; 2002; 2003; 2004; 2005] 4
                    eq_refl eq_refl (conj (Zle_bool_imp_le 0 4 eq_refl)
                                          (Zle_bool_imp_le 4 4 eq_refl)))).
    reflexivity.
Defined.

(** ** Writing an integer and reading it back *)

Lemma digit_char_spec d :
  0 <= d < 10 ->
  is_digit (digit_char d) = true /\ digit_val (digit_char d) = d.
Proof.
  intros Hd.
  assert (H : d = 0 \/ d = 1 \/ d = 2 \/ d = 3 \/ d = 4 \/ d = 5 \/ d = 6 \/
              d = 7 \/ d = 8 \/ d = 9) by lia.
  repeat (destruct H as [-> | H]); try subst d; split; reflexivity.
Qed.

Lemma digits_value_app x : forall a y,
  digits_value a (x ++ y) = digits_value (digits_value a x) y.
Proof. induction x as [|c x IH]; intros a y; simpl; auto. Qed.

Lemma all_digits_app x y :
  all_digits (x ++ y) = all_digits x && all_digits y.
Proof.
  induction x as [|c x IH]; simpl; [reflexivity|].
  now rewrite IH, andb_assoc.
Qed.

Lemma length_append x y :
  String.length (x ++ y) = (String.length x + String.length y)%nat.
Proof. induction x as [|c x IH]; simpl; auto. Qed.

Lemma append_assoc x y z : ((x ++ y) ++ z)%string = (x ++ y ++ z)%string.
Proof. induction x; simpl; congruence. Qed.

Lemma single_digit n :
  0 <= n < 10 ->
  all_digits (String (digit_char (n mod 10)) "") = true /\
  forall a, digits_value a (String (digit_char (n mod 10)) "")
            = a * 10 ^ Z.of_nat 1 + n.
Proof.
  intros Hn. rewrite Z.mod_small by lia.
  destruct (digit_char_spec n Hn) as (Hd & Hv).
  cbn [all_digits digits_value]. rewrite Hd, Hv.
  change (10 ^ Z.of_nat 1) with 10. split; [reflexivity | intros a; lia].
Qed.

(** With fuel for its binary digits, [digits_of] puts the decimal writing
    of [n] before [acc]. *)
Lemma digits_of_spec fuel : forall n acc,
  0 <= n < 2 ^ Z.of_nat (S fuel) ->
  exists ds,
    digits_of (S fuel) n acc = (ds ++ acc)%string /\
    all_digits ds = true /\ ds <> EmptyString /\
    (String.length ds <= S fuel)%nat /\
    forall a, digits_value a ds = a * 10 ^ Z.of_nat (String.length ds) + n.
Proof.
  induction fuel as [|fuel IH]; intros n acc Hn.
  - assert (Hlt : n < 10) by (change (2 ^ Z.of_nat 1) with 2 in Hn; lia).
    cbn [digits_of]. apply Z.ltb_lt in Hlt as Hb. rewrite Hb.
    destruct (single_digit n) as (Hd & Hv); [lia|].
    exists (String (digit_char (n mod 10)) "").
    split; [reflexivity|]. split; [exact Hd|]. split; [discriminate|].
    split; [cbn [String.length]; lia | exact Hv].
  - change (digits_of (S (S fuel)) n acc)
      with (let acc' := String (digit_char (n mod 10)) acc in
            if n <? 10 then acc' else digits_of (S fuel) (n / 10) acc').
    cbv zeta.
    destruct (n <? 10) eqn:Hb.
    + apply Z.ltb_lt in Hb.
      destruct (single_digit n) as (Hd & Hv); [lia|].
      exists (String (digit_char (n mod 10)) "").
      split; [reflexivity|]. split; [exact Hd|]. split; [discriminate|].
      split; [cbn [String.length]; lia | exact Hv].
    + apply Z.ltb_ge in Hb.
      destruct (digit_char_spec (n mod 10)) as (Hd & Hv);
        [apply Z.mod_pos_bound; lia|].
      assert (Hq : 0 <= n / 10 < 2 ^ Z.of_nat (S fuel)).
      { split; [apply Z.div_pos; lia|].
        apply Z.div_lt_upper_bound; [lia|].
        replace (Z.of_nat (S (S fuel))) with (Z.succ (Z.of_nat (S fuel)))
          in Hn by lia.
        rewrite Z.pow_succ_r in Hn by lia. lia. }
      destruct (IH (n / 10) (String (digit_char (n mod 10)) acc) Hq)
        as (ds & -> & Hall & Hne & Hlen & Hval).
      exists (ds ++ String (digit_char (n mod 10)) "")%string.
      rewrite append_assoc. cbn [append].
      split; [reflexivity|]. split; [|split; [|split]].
      * rewrite all_digits_app, Hall. cbn [all_digits andb]. now rewrite Hd.
      * destruct ds; discriminate.
      * rewrite length_append. cbn [String.length]. lia.
      * intros a. rewrite digits_value_app, Hval. cbn [digits_value].
        rewrite Hv, length_append. cbn [String.length].
        replace (Z.of_nat (String.length ds + 1))
          with (Z.succ (Z.of_nat (String.length ds))) by lia.
        rewrite Z.pow_succ_r by lia.
        pose proof (Z.div_mod n 10 ltac:(lia)). lia.
Qed.

Lemma digits_of_abs z :
  - 2 ^ 63 <= z < 2 ^ 63 ->
  exists ds,
    digits_of (S (Z.to_nat (Z.log2 (Z.abs z)))) (Z.abs z) "" = ds /\
    decimal ds /\ digits_value 0 ds = Z.abs z.
Proof.
  intros Hz. set (n := Z.abs z).
  assert (Hn : 0 <= n <= 2 ^ 63) by (unfold n; lia).
  assert (Hlog : Z.log2 n <= 63).
  { transitivity (Z.log2 (2 ^ 63)); [apply Z.log2_le_mono; lia|].
    rewrite Z.log2_pow2; lia. }
  pose proof (Z.log2_nonneg n) as Hl0.
  assert (Hb : 0 <= n < 2 ^ Z.of_nat (S (Z.to_nat (Z.log2 n)))).
  { split; [lia|]. rewrite Nat2Z.inj_succ, Z2Nat.id by lia.
    destruct (Z.eq_dec n 0) as [->|]; [reflexivity|].
    apply Z.log2_spec. lia. }
  destruct (digits_of_spec _ n "" Hb) as (ds & Hds & Hall & Hne & Hlen & Hval).
  rewrite append_nil_r in Hds. exists ds. split; [exact Hds|]. split.
  - repeat split; try assumption. unfold int_max_str_digits. lia.
  - rewrite Hval. lia.
Qed.

(** A 64-bit integer written by [format] is read back by [int]. *)
Lemma astype_int_format_int z :
  - 2 ^ 63 <= z < 2 ^ 63 -> astype_int (format_int z) = Ok z.
Proof.
  intros Hz. destruct (digits_of_abs z Hz) as (ds & Hds & Hdec & Hval).
  unfold astype_int, format_int. rewrite Hds.
  assert (Hr : (- 2 ^ 63 <=? z) && (z <? 2 ^ 63) = true).
  { apply andb_true_intro. split; [apply Z.leb_le | apply Z.ltb_lt]; lia. }
  destruct (z <? 0) eqn:Hneg.
  - apply Z.ltb_lt in Hneg. rewrite (py_int_neg_decimal ds Hdec). cbn [bind].
    rewrite Hval. replace (- Z.abs z) with z by lia. now rewrite Hr.
  - apply Z.ltb_ge in Hneg. rewrite (py_int_decimal ds Hdec). cbn [bind].
    rewrite Hval. replace (Z.abs z) with z by lia. now rewrite Hr.
Qed.

(** ** The marks of the slider *)

Lemma In_py_range a b step i :
  0 < step ->
  In i (py_range a b step) <-> a <= i < b /\ (i - a) mod step = 0.
Proof.
  intros Hstep. unfold py_range. rewrite in_map_iff.
  set (N := (b - a + step - 1) / step).
  assert (HN : step * N <= b - a + step - 1 < step * N + step).
  { unfold N. pose proof (Z.div_mod (b - a + step - 1) step ltac:(lia)).
    pose proof (Z.mod_pos_bound (b - a + step - 1) step Hstep). lia. }
  split.
  - intros (k & <- & Hk). apply in_seq in Hk.
    assert (Hk' : Z.of_nat k < N) by lia.
    split; [nia|].
    replace (a + step * Z.of_nat k - a) with (Z.of_nat k * step) by lia.
    apply Z.mod_mul. lia.
  - intros (Hi & Hm).
    pose proof (Z.div_mod (i - a) step ltac:(lia)) as Hd. rewrite Hm in Hd.
    set (q := (i - a) / step) in *.
    assert (Hq : 0 <= q < N) by nia.
    exists (Z.to_nat q). split; [lia|]. apply in_seq. lia.
Qed.

Lemma nth_error_last {A} (l : list A) d :
  l <> [] -> nth_error l (List.length l - 1) = Some (last l d).
Proof.
  induction l as [|a l IH]; [congruence|]. intros _.
  destruct l as [|b l]; [reflexivity|].
  replace (List.length (a :: b :: l) - 1)%nat with (S (List.length (b :: l) - 1))
    by (simpl; lia).
  change (last (a :: b :: l) d) with (last (b :: l) d).
  cbn [nth_error]. apply IH. discriminate.
Qed.

Lemma py_index_last {A} (l : list A) d :
  l <> [] -> py_index l (len l - 1) = Ok (last l d).
Proof.
  intros Hne. unfold py_index. fold (len l).
  assert (Hpos : 0 < len l) by (unfold len; destruct l; [congruence | simpl; lia]).
  destruct (len l - 1 <? 0) eqn:E1; [apply Z.ltb_lt in E1; lia|]. rewrite E1.
  destruct (len l <=? len l - 1) eqn:E2; [apply Z.leb_le in E2; lia|].
  cbn [orb]. replace (Z.to_nat (len l - 1)) with (List.length l - 1)%nat
    by (unfold len; lia).
  now rewrite (nth_error_last l d Hne).
Qed.

Lemma In_hd_last {A} (l : list A) d : l <> [] -> In (hd d l) l /\ In (last l d) l.
Proof.
  intros Hne. split.
  - destruct l; [congruence | now left].
  - destruct (exists_last Hne) as (l' & a & ->).
    rewrite last_last. apply in_or_app. right. now left.
Qed.

(** X10.  The marks of the slider are the years 25 apart from the first
    year on and strictly below the last one, each labelled with its
    decimal writing: the last year never carries a mark, and a table of a
    single year has none.  Every label, read as the year headers are,
    gives back its key. *)
Theorem slider_marks_spec ys :
  ys <> [] -> (forall y, In y ys -> - 2 ^ 63 <= y < 2 ^ 63) ->
  exists marks,
    slider_marks ys = Ok marks /\
    (forall i l, In (i, l) marks <->
       hd 0 ys <= i < last ys 0 /\ (i - hd 0 ys) mod 25 = 0 /\
       l = format_int i) /\
    (forall i l, In (i, l) marks -> astype_int l = Ok i) /\
    (forall l, ~ In (last ys 0, l) marks).
Proof.
  intros Hne Hb. unfold slider_marks.
  assert (H0 : py_index ys 0 = Ok (hd 0 ys))
    by (destruct ys; [congruence | apply py_index_0]).
  rewrite H0, (py_index_last ys 0 Hne). cbn [bind].
  eexists. split; [reflexivity|].
  assert (Hin : forall i l,
            In (i, l) (map (fun i => (i, format_int i))
                           (py_range (hd 0 ys) (last ys 0) 25)) <->
            hd 0 ys <= i < last ys 0 /\ (i - hd 0 ys) mod 25 = 0 /\
            l = format_int i).
  { intros i l. rewrite in_map_iff. split.
    - intros (j & Hj & Hr). injection Hj as -> <-.
      apply In_py_range in Hr; [tauto | lia].
    - intros (Hi & Hm & ->). exists i. split; [reflexivity|].
      apply In_py_range; [lia | tauto]. }
  split; [exact Hin|]. split.
  - intros i l Hil. apply Hin in Hil as (Hi & _ & ->).
    destruct (In_hd_last ys 0 Hne) as (Hh & Hl).
    apply Hb in Hh. apply Hb in Hl. apply astype_int_format_int. lia.
  - intros l Hil. apply Hin in Hil. lia.
Qed.

Lemma slider_marks_spec_witness :
  exists marks,
    slider_marks [2000; 2025; 2050] = Ok marks /\
    (In (2025, "2025"%string) marks) /\
    ~ In (2050, "2050"%string) marks.
Proof.
  destruct (slider_marks_spec [2000; 2025; 2050]) as (marks & Hm & Hin & _ & Hl).
  - discriminate.
  - intros y Hy. simpl in Hy.
    destruct Hy as [<- | [<- | [<- | []]]]; split; vm_compute; congruence.
  - exists marks. split; [exact Hm|]. split; [|apply Hl].
    apply Hin. repeat split; vm_compute; congruence.
Defined.

(** ** The first figure and the callback *)

(** On an axis of consecutive years, the year at a position. *)
Lemma contiguous_py_index ys i :
  contiguous ys -> 0 <= i < len ys ->
  py_index ys i = Ok (hd 0 ys + i) /\ In (hd 0 ys + i) ys.
Proof.
  intros Hc Hi. unfold contiguous in Hc. unfold len in Hi.
  assert (Hin : In (hd 0 ys + i) (Zseq (hd 0 ys) (List.length ys)))
    by (apply In_Zseq; lia).
  rewrite <- Hc in Hin. split; [|exact Hin].
  set (y0 := hd 0 ys) in *. rewrite Hc. apply py_index_Zseq. lia.
Qed.

(** X11.  When the module starts without raising on a table of
    consecutive years, the first figure is the one the callback returns for
    the values the two controls start with: the sampled countries and the
    default range of the slider. *)
Theorem first_figure_is_callback coerce raw C start st :
  app_start coerce raw C start = Ok st ->
  contiguous (app_years st) -> 0 <= start ->
  update_graph coerce (app_df st) (app_years st) C
               [fst (slider_value (app_slider st));
                snd (slider_value (app_slider st))]
  = Ok (app_figure st).
Proof.
  unfold app_start. intros H Hc Hs.
  apply bind_ok in H as (df & Hdf & H).
  apply bind_ok in H as (keys & Hk & H).
  apply bind_ok in H as (starting & Hsample & H).
  apply bind_ok in H as (ys & Hy & H).
  apply bind_ok in H as (sl & Hsl & H).
  apply bind_ok in H as (marks & Hmarks & H).
  apply bind_ok in H as (fig & Hfig & H).
  injection H as <-. cbn [app_df app_years app_slider app_figure] in *.
  unfold sample_5 in Hsample.
  destruct (len keys <? 5); [discriminate|]. injection Hsample as <-.
  unfold slider_div in Hsl.
  apply bind_ok in Hsl as (lo & Hlo & Hsl).
  apply bind_ok in Hsl as (hi & Hhi & Hsl).
  apply bind_ok in Hsl as (a & Ha & Hsl).
  apply bind_ok in Hsl as (b & Hb & Hsl).
  injection Hsl as <-. cbn [slider_value fst snd].
  pose proof (py_index_ok_bounds ys start a Hs Ha) as Hlt.
  assert (He0 : 0 <= end_of ys start).
  { unfold end_of.
    pose proof (Z.div_pos (len ys) 3 (len_nonneg ys) ltac:(lia)). lia. }
  pose proof (py_index_ok_bounds ys _ b He0 Hb) as Helt.
  assert (Hne : ys <> []) by (intros ->; unfold len in Hlt; simpl in Hlt; lia).
  set (en := end_of ys start) in *.
  destruct (contiguous_py_index ys start Hc) as (Ha' & Hina); [lia|].
  destruct (contiguous_py_index ys en Hc) as (Hb' & Hinb); [lia|].
  rewrite Ha' in Ha. rewrite Hb' in Hb.
  injection Ha as <-. injection Hb as <-.
  unfold update_graph.
  rewrite (mini_df_by_position _ _ _ _ _ Hne
             (on_axis_within_reach _ _ _ Hy Hc Hina)
             (on_axis_within_reach _ _ _ Hy Hc Hinb)).
  replace (hd 0 ys + start - hd 0 ys) with start by lia.
  replace (hd 0 ys + en - hd 0 ys) with en by lia.
  exact Hfig.
Qed.

Lemma first_figure_is_callback_witness :
  exists st,
    app_start coerce_int_literals six_countries_raw
              ["Andorra"; "Belize"; "Chad"; "Egypt"; "Fiji"]%string 1 = Ok st /\
    slider_value (app_slider st) = (1999, 2000) /\
    update_graph coerce_int_literals (app_df st) [1998; 1999; 2000; 2001]
                 ["Andorra"; "Belize"; "Chad"; "Egypt"; "Fiji"]%string
                 [1999; 2000] = Ok (app_figure st).
Proof.
  eexists. split; [reflexivity|]. split; [reflexivity|].
  apply (first_figure_is_callback coerce_int_literals six_countries_raw
           ["Andorra"; "Belize"; "Chad"; "Egypt"; "Fiji"]%string 1 _ eq_refl);
    [reflexivity | discriminate].
Defined.

(** ** The selection of countries *)

Lemma isin_ext C C' :
  (forall c, In c C <-> In c C') -> forall k, isin C k = isin C' k.
Proof.
  intros H k. destruct (isin C k) eqn:E; symmetry.
  - apply isin_spec in E as (c & -> & Hc). apply isin_spec.
    exists c. split; [reflexivity | now apply H].
  - destruct (isin C' k) eqn:E'; [|reflexivity].
    apply isin_spec in E' as (c & -> & Hc).
    assert (isin C (PyStr c) = true)
      by (apply isin_spec; exists c; split; [reflexivity | now apply H]).
    congruence.
Qed.

(** X12.  The callback depends on the selected countries as a set: two
    selections with the same names, in whatever order and with whatever
    repetitions, give the same selection and the same records. *)
Theorem selection_is_a_set coerce df ys C C' sel :
  (forall c, In c C <-> In c C') ->
  mini_df df ys C sel = mini_df df ys C' sel /\
  update_graph coerce df ys C sel = update_graph coerce df ys C' sel.
Proof.
  intros H.
  assert (Hm : mini_df df ys C sel = mini_df df ys C' sel).
  { unfold mini_df. destruct (getitem df "country") as [country|]; [|reflexivity].
    cbn [bind]. now rewrite (map_ext _ _ (isin_ext C C' H)). }
  split; [exact Hm|]. unfold update_graph. now rewrite Hm.
Qed.

Lemma selection_is_a_set_witness :
  update_graph coerce_int_literals scenario_df [2000; 2001; 2002]
               ["Zimbabwe"; "Andorra"; "Zimbabwe"]%string [2000; 2001]
  = update_graph coerce_int_literals scenario_df [2000; 2001; 2002]
                 ["Andorra"; "Zimbabwe"]%string [2000; 2001].
Proof.
  apply (selection_is_a_set coerce_int_literals scenario_df [2000; 2001; 2002]
           ["Zimbabwe"; "Andorra"; "Zimbabwe"]%string
           ["Andorra"; "Zimbabwe"]%string).
  intros c. simpl. tauto.
Defined.

Lemma melt_column_no_rows c : melt_column [] c = [].
Proof. reflexivity. Qed.

Lemma flat_map_nil {A B} (f : A -> list B) l :
  (forall a, In a l -> f a = []) -> flat_map f l = [].
Proof.
  induction l as [|a l IH]; intros H; simpl; [reflexivity|].
  rewrite (H a) by now left. apply IH. intros; apply H; now right.
Qed.

(** X13.  Names that are not keys of the table are ignored: when none of
    the selected names is a key, and in particular when the selection is
    empty, the callback returns no record and does not raise, for every
    range [s <= e] whose two years are within reach of the 64-bit offsets
    (each fits in an int64 and lies within [2 ^ 61] of the first year). *)
Theorem update_graph_no_known_country coerce df keys ys C s e :
  getitem df "country" = Ok keys -> years_of df = Ok ys -> ys <> [] ->
  (forall c, In c C -> ~ In (PyStr c) keys) -> s <= e ->
  within_reach (hd 0 ys) s -> within_reach (hd 0 ys) e ->
  update_graph coerce df ys C [s; e] = Ok [].
Proof.
  intros Hg Hy Hne Hno Hse Hrs Hre.
  destruct (frame_shape df keys ys Hg Hy) as (ycols & -> & _ & Hc).
  assert (Hhd : hd_error ys = Some (hd 0 ys))
    by (destruct ys; [congruence | reflexivity]).
  destruct (mini_df_keeps_country keys ycols ys (hd 0 ys) C s e
              Hc Hhd Hse Hrs Hre) as (cols & Hm & _).
  assert (Hk : filter (isin C) keys = []).
  { apply filter_none. intros k Hin.
    destruct (isin C k) eqn:E; [|reflexivity].
    apply isin_spec in E as (c & -> & Hcin). now apply Hno in Hcin. }
  unfold update_graph. rewrite Hm, Hk. cbn [bind].
  unfold melt. cbn [getitem String.eqb Ascii.eqb Bool.eqb bind].
  rewrite flat_map_nil by (intros; apply melt_column_no_rows). reflexivity.
Qed.

Lemma update_graph_no_known_country_witness :
  update_graph coerce_int_literals scenario_df [2000; 2001; 2002]
               ["Atlantis"%string] [2000; 2002] = Ok [] /\
  update_graph coerce_int_literals scenario_df [2000; 2001; 2002]
               [] [2000; 2002] = Ok [].
Proof.
  split;
    apply (update_graph_no_known_country coerce_int_literals scenario_df
             [PyStr "Andorra"; PyStr "Zimbabwe"]);
    try reflexivity; try discriminate; try lia;
    try (unfold within_reach; simpl; lia);
    intros c Hc H; simpl in Hc, H; try contradiction;
    destruct Hc as [<- | []]; destruct H as [H | [H | []]]; discriminate H.
Defined.

(** ** A crossed range *)

Lemma py_slice_all {A} (l : list A) : py_slice l 0 (len l + 1) = l.
Proof.
  unfold py_slice, slice_bound. pose proof (len_nonneg l) as Hn.
  change (0 <? 0) with false. cbv iota.
  destruct (len l + 1 <? 0) eqn:E; [apply Z.ltb_lt in E; lia|].
  replace (Z.to_nat (Z.min 0 (len l))) with 0%nat by lia.
  cbn [skipn]. apply firstn_all2. unfold len in *. lia.
Qed.

Lemma py_slice_from_1 {A} (c : A) ls :
  py_slice (c :: ls) 1 (len (c :: ls) + 1) = ls.
Proof.
  unfold py_slice, slice_bound. rewrite len_cons.
  pose proof (len_nonneg ls) as Hn.
  change (1 <? 0) with false. cbv iota.
  destruct (len ls + 1 + 1 <? 0) eqn:E; [apply Z.ltb_lt in E; lia|].
  replace (Z.to_nat (Z.min 1 (len ls + 1))) with 1%nat by lia.
  cbn [skipn]. apply firstn_all2. unfold len in *. lia.
Qed.

Lemma drop_all ls : drop ls (columns ls) = [].
Proof.
  unfold drop. apply filter_none. intros c Hc.
  apply negb_false_iff, mem_In. now apply in_map.
Qed.

(** X14.  The callback relies on the host for [s <= e].  Whatever the
    selection, for a start [s] such that [s] and [s - 2] are within reach
    of the 64-bit offsets (each fits in an int64 and lies within [2 ^ 61]
    of the first year), the range [(s, s - 1)] leaves no year column and
    gives no record, and the range [(s, s - 2)] drops the country column
    too, so that [pd.melt] raises a KeyError. *)
Theorem update_graph_crossed_by_one_or_two coerce df keys ys C s :
  getitem df "country" = Ok keys -> years_of df = Ok ys -> ys <> [] ->
  within_reach (hd 0 ys) s -> within_reach (hd 0 ys) (s - 2) ->
  update_graph coerce df ys C [s; s - 1] = Ok [] /\
  update_graph coerce df ys C [s; s - 2] = Raise KeyError.
Proof.
  intros Hg Hy Hne Hrs Hr2.
  assert (Hr1 : within_reach (hd 0 ys) (s - 1)).
  { unfold within_reach in *. lia. }
  destruct (frame_shape df keys ys Hg Hy) as (ycols & -> & _ & Hc).
  set (a := s - hd 0 ys).
  set (mask := map (isin C) keys).
  set (c0 := ("country"%string, filter (isin C) keys)).
  set (L := loc ycols mask).
  assert (Hloc : loc (("country"%string, keys) :: ycols) mask = c0 :: L).
  { unfold loc, c0, mask. cbn [map fst snd]. now rewrite filter_mask_map. }
  assert (Hc' : ~ In (fst c0) (columns L)) by (unfold L; now rewrite columns_loc).
  assert (Hcols : forall l, columns (c0 :: l) = "country"%string :: columns l)
    by reflexivity.
  set (labels1 := py_slice ("country"%string :: columns L) 1 (a + 1)).
  assert (H1 : ~ In (fst c0) labels1).
  { intros Hin. apply Hc'. eapply py_slice_after_head; [|exact Hin]. lia. }
  set (L1 := drop L labels1).
  assert (Hc1 : ~ In (fst c0) (columns L1)).
  { intros Hin. apply Hc'. eapply In_columns_drop. exact Hin. }
  assert (Hfirst : forall b,
            initial_mini_df (("country"%string, keys) :: ycols) C a b
            = Ok (drop (c0 :: L1)
                    (py_slice ("country"%string :: columns L1)
                       (b - a + 2)
                       (len ("country"%string :: columns L1) + 1)))).
  { intros b. unfold initial_mini_df.
    cbn [getitem String.eqb Ascii.eqb Bool.eqb bind].
    fold mask. rewrite Hloc, Hcols. fold labels1.
    rewrite (drop_keeps_head c0 L labels1 H1). fold L1. now rewrite Hcols. }
  unfold update_graph. split.
  - rewrite (mini_df_by_position _ _ _ _ _ Hne Hrs Hr1). fold a.
    rewrite Hfirst. replace (s - 1 - hd 0 ys - a + 2) with 1 by (unfold a; lia).
    rewrite py_slice_from_1, (drop_keeps_head c0 L1 _ Hc1), drop_all.
    reflexivity.
  - rewrite (mini_df_by_position _ _ _ _ _ Hne Hrs Hr2). fold a.
    rewrite Hfirst. replace (s - 2 - hd 0 ys - a + 2) with 0 by (unfold a; lia).
    rewrite py_slice_all. rewrite <- Hcols, drop_all. reflexivity.
Qed.

Lemma update_graph_crossed_by_one_or_two_witness :
  update_graph coerce_int_literals five_years_df [2000; 2001; 2002; 2003; 2004]
               ["Andorra"%string] [2003; 2002] = Ok [] /\
  update_graph coerce_int_literals five_years_df [2000; 2001; 2002; 2003; 2004]
               ["Andorra"%string] [2003; 2001] = Raise KeyError.
Proof.
  apply (update_graph_crossed_by_one_or_two coerce_int_literals five_years_df
           [PyStr "Andorra"] [2000; 2001; 2002; 2003; 2004]
           ["Andorra"%string] 2003);
    [reflexivity | reflexivity | discriminate
    | unfold within_reach; simpl; lia | unfold within_reach; simpl; lia].
Defined.

(** ** The records and the cells of the table *)

(** The pairs of a key and a cell that survive the mask are those that
    stand in the same row, the mask holding there. *)
Lemma In_combine_filter_mask {A B} mask : forall (ks : list A) (vs : list B) k v,
  In (k, v) (combine (filter_mask mask ks) (filter_mask mask vs)) <->
  exists i, nth_error mask i = Some true /\
            nth_error ks i = Some k /\ nth_error vs i = Some v.
Proof.
  induction mask as [|b mask IH]; intros ks vs k v.
  - destruct ks; simpl; (split; [contradiction|]);
      intros (i & Hi & _); destruct i; discriminate.
  - destruct ks as [|k0 ks].
    + simpl. split; [contradiction|].
      intros (i & _ & Hi & _). destruct i; discriminate.
    + destruct vs as [|v0 vs].
      * assert (Hnil : combine (filter_mask (b :: mask) (k0 :: ks))
                               (filter_mask (b :: mask) (@nil B)) = []).
        { simpl. destruct (if b then _ else _); reflexivity. }
        rewrite Hnil. split; [contradiction|].
        intros (i & _ & _ & Hi). destruct i; discriminate.
      * cbn [filter_mask]. destruct b.
        -- cbn [combine In]. rewrite IH. split.
           ++ intros [Heq | (i & Hm & Hk & Hv)].
              ** injection Heq as <- <-. exists 0%nat. auto.
              ** exists (S i). auto.
           ++ intros ([|i] & Hm & Hk & Hv); cbn [nth_error] in *.
              ** left. congruence.
              ** right. eauto.
        -- rewrite IH. split.
           ++ intros (i & Hm & Hk & Hv). exists (S i). auto.
           ++ intros ([|i] & Hm & Hk & Hv); cbn [nth_error] in *;
                [discriminate | eauto].
Qed.

Lemma Forall2_map_left {A B C} (P : B -> C -> Prop) (f : A -> B) l : forall l',
  Forall2 P (map f l) l' -> Forall2 (fun a c => P (f a) c) l l'.
Proof.
  induction l as [|a l IH]; intros l' H; inversion H; subst; constructor; auto.
Qed.

Section Positions.

Context {A B : Type} (R : A -> B -> Prop).
Hypothesis R_functional : forall a b b', R a b -> R a b' -> b = b'.

(** In two lists related position by position, the second without
    repetition, an element related to one of the kept positions is itself
    kept. *)
Lemma Forall2_In_skipn_l j : forall l l' a b,
  Forall2 R l l' -> NoDup l' -> In a l -> R a b -> In b (skipn j l') ->
  In a (skipn j l).
Proof.
  induction j as [|j IH]; intros l l' a b HF Hnd Ha HR Hb; [assumption|].
  destruct HF as [|x y l l' Hxy HF]; [contradiction|].
  inversion Hnd as [|? ? Hy Hnd']; subst. cbn [skipn] in *.
  destruct Ha as [-> | Ha]; [|eauto].
  rewrite (R_functional _ _ _ HR Hxy) in Hb.
  exfalso. apply Hy. eapply In_skipn, Hb.
Qed.

Lemma Forall2_In_firstn_l k : forall l l' a b,
  Forall2 R l l' -> NoDup l' -> In a l -> R a b -> In b (firstn k l') ->
  In a (firstn k l).
Proof.
  induction k as [|k IH]; intros l l' a b HF Hnd Ha HR Hb; [contradiction|].
  destruct HF as [|x y l l' Hxy HF]; [contradiction|].
  inversion Hnd as [|? ? Hy Hnd']; subst. cbn [firstn] in *.
  destruct Ha as [-> | Ha]; [now left|]. right.
  destruct Hb as [<- | Hb]; [|eauto].
  destruct (Forall2_In_l _ _ _ _ HF Ha) as (b' & Hb' & HR').
  rewrite (R_functional _ _ _ HR HR') in Hy. contradiction.
Qed.

End Positions.

Lemma In_filter_mask {A} mask : forall (l : list A) x,
  In x (filter_mask mask l) -> In x l.
Proof.
  induction mask as [|b mask IH]; intros [|a l] x H; try contradiction.
  cbn [filter_mask] in H. destruct b.
  - destruct H as [<-|H]; [now left | right; auto].
  - right. auto.
Qed.

Lemma getitem_NoDup df l vs :
  NoDup (columns df) -> In (l, vs) df -> getitem df l = Ok vs.
Proof.
  induction df as [|[l0 vs0] df IH]; intros Hnd Hin; [contradiction|].
  cbn [columns map fst] in Hnd. inversion Hnd as [|? ? Hl0 Hnd']; subst.
  cbn [getitem]. destruct Hin as [Heq|Hin].
  - injection Heq as -> ->. now rewrite String.eqb_refl.
  - destruct (String.eqb_spec l0 l) as [->|]; [|now apply IH].
    exfalso. apply Hl0. now apply (in_map fst) in Hin.
Qed.

(** A year column of integers that fit in 64 bits is an int64 column. *)
Lemma column_dtype_int64 keys ycols l vs :
  ~ In "country"%string (columns ycols) -> NoDup (columns ycols) ->
  In (l, vs) ycols -> forallb is_int64 vs = true ->
  column_dtype (("country"%string, keys) :: ycols) l = Int64.
Proof.
  intros Hno Hnd Hin Hvs. unfold column_dtype. cbn [getitem].
  destruct (String.eqb_spec "country" l) as [<-|_].
  - exfalso. apply Hno. now apply (in_map fst) in Hin.
  - rewrite (getitem_NoDup _ _ _ Hnd Hin). unfold dtype_of. now rewrite Hvs.
Qed.

(** Values that are integers of 64 bits make an int64 column. *)
Lemma value_column_int64 coerce (melted : list (pyval * string * pyval)) :
  (forall r, In r melted -> is_int64 (snd r) = true) ->
  numeric_dtype (map (fun r => read_numeric coerce (snd r)) melted) = Int64.
Proof.
  intros H. unfold numeric_dtype, dtype_of.
  replace (forallb is_int64 (map (fun r => read_numeric coerce (snd r)) melted))
    with true; [reflexivity|].
  symmetry. apply forallb_forall. intros v Hv.
  apply in_map_iff in Hv as (r & <- & Hr). specialize (H r Hr).
  destruct (snd r); try discriminate. exact H.
Qed.

(** X15.  The callback loses and invents nothing on a table of integers:
    for a loaded table whose year cells are all integers that fit in 64
    bits (so that pandas holds them, and the melted values, as int64),
    whose year labels pandas reads as [int] does, and a range [s <= e] on
    the year axis, the records are exactly the cells of the year columns
    [s..e] in the rows of the selected countries, each with the key of its
    row, the year of its column and the cell itself. *)
Theorem records_are_selected_cells coerce df keys ys C s e :
  getitem df "country" = Ok keys -> years_of df = Ok ys -> contiguous ys ->
  (forall l y, In l (columns df) -> astype_int l = Ok y ->
               coerce (PyStr l) = PyInt y) ->
  forallb is_int64 (year_cells df) = true ->
  In s ys -> In e ys -> s <= e ->
  exists records,
    update_graph coerce df ys C [s; e] = Ok records /\
    forall r, In r records <->
      exists l vs y i k v,
        In (l, vs) (tl df) /\ astype_int l = Ok y /\ s <= y <= e /\
        nth_error keys i = Some k /\ isin C k = true /\
        nth_error vs i = Some v /\
        r = mkTidy k (PyInt y) v.
Proof.
  intros Hg Hy Hc Hco Hint Hs He Hse.
  destruct (loaded_frame df keys ys Hg Hy Hc) as (ycols & -> & HF & Hno & Hnd).
  assert (Hcell : forall l vs v, In (l, vs) ycols -> In v vs -> is_int64 v = true).
  { intros l vs v Hin Hv. unfold year_cells in Hint. cbn [tl] in Hint.
    rewrite forallb_forall in Hint. apply Hint.
    apply in_flat_map. exists (l, vs). auto. }
  destruct (contiguous_bounds ys s Hc Hs) as (Hhd & Hsb).
  destruct (contiguous_bounds ys e Hc He) as (_ & Heb).
  pose proof (on_axis_within_reach _ _ _ Hy Hc Hs) as Hrs.
  pose proof (on_axis_within_reach _ _ _ Hy Hc He) as Hre.
  destruct (years_of_bounds _ _ Hy) as (Hlen60 & _).
  unfold update_graph.
  rewrite (mini_df_shape keys ycols ys (hd 0 ys) C s e) by (assumption || lia).
  cbn [bind tl].
  set (mask := map (isin C) keys).
  set (j := Z.to_nat (s - hd 0 ys)). set (k := Z.to_nat (e - s + 1)).
  set (L := loc ycols mask).
  assert (HFL : Forall2 (fun c y => astype_int (fst c) = Ok y) L ys).
  { apply (Forall2_map_left (fun l y => astype_int l = Ok y) fst).
    fold (columns L). unfold L. now rewrite columns_loc. }
  assert (Hfun : forall (c : column) y y',
             astype_int (fst c) = Ok y -> astype_int (fst c) = Ok y' -> y = y')
    by (intros; congruence).
  assert (Hys : NoDup ys) by (rewrite Hc; apply Zseq_NoDup).
  assert (Hrange : firstn k (skipn j ys) = Zseq s k).
  { unfold contiguous in Hc. unfold j, k, len in *.
    set (y0 := hd 0 ys) in *. rewrite Hc. apply range_Zseq; lia. }
  assert (Hcols : forall c, In c (firstn k (skipn j L)) <->
            exists l vs y, In (l, vs) ycols /\ astype_int l = Ok y /\
                           s <= y <= e /\ c = (l, filter_mask mask vs)).
  { intros c. split.
    - intros Hin.
      destruct (Forall2_In_l _ _ _ _
                  (Forall2_firstn _ k _ _ (Forall2_skipn _ j _ _ HFL)) Hin)
        as (y & Hyin & Hcy).
      rewrite Hrange in Hyin. apply In_Zseq in Hyin.
      destruct c as [l vs'].
      apply In_firstn, In_skipn, In_loc in Hin as (vs & Hin & ->).
      exists l, vs, y. repeat split; try assumption; unfold k in *; lia.
    - intros (l & vs & y & Hin & Hly & Hyr & ->).
      assert (HinL : In (l, filter_mask mask vs) L).
      { unfold L, loc. apply in_map_iff. exists (l, vs). auto. }
      assert (Hyin : In y (firstn k (skipn j ys))).
      { rewrite Hrange. apply In_Zseq. unfold k. lia. }
      eapply (Forall2_In_firstn_l _ Hfun); [| | | exact Hly | exact Hyin].
      + apply Forall2_skipn. exact HFL.
      + now apply NoDup_skipn.
      + eapply (Forall2_In_skipn_l _ Hfun);
          [exact HFL | exact Hys | exact HinL | exact Hly |].
        eapply In_firstn, Hyin. }
  rewrite melt_shape.
  2:{ intros Hin. apply Hno.
      replace (columns (firstn k (skipn j L)))
        with (firstn k (skipn j (columns ycols))) in Hin.
      - eapply In_skipn, In_firstn, Hin.
      - rewrite <- (columns_loc ycols mask). unfold columns.
        now rewrite skipn_map, firstn_map. }
  cbn [bind]. eexists. split; [reflexivity|].
  rewrite upcast_int64.
  2:{ intros c Hin. apply Hcols in Hin as (l & vs & y & Hlvs & _ & _ & ->).
      cbn [fst]. apply (column_dtype_int64 keys ycols l vs); try assumption.
      apply forallb_forall. intros v Hv. eapply Hcell; eassumption. }
  rewrite tidy_frame_map.
  rewrite year_column_int64.
  2:{ intros r Hr. apply in_flat_map in Hr as (c & Hin & Hr).
      apply Hcols in Hin as (l & vs & y & Hlvs & Hly & _ & ->).
      unfold melt_column in Hr. apply in_map_iff in Hr as (iv & <- & _).
      cbn [fst snd]. exists y. split.
      - apply Hco; [|assumption]. right. now apply (in_map fst) in Hlvs.
      - eapply astype_int_int64. eassumption. }
  rewrite value_column_int64.
  2:{ intros r Hr. apply in_flat_map in Hr as (c & Hin & Hr).
      apply Hcols in Hin as (l & vs & y & Hlvs & _ & _ & ->).
      unfold melt_column in Hr. apply in_map_iff in Hr as ([k1 v1] & <- & Hr).
      cbn [fst snd] in *. apply in_combine_r, In_filter_mask in Hr.
      eapply Hcell; eassumption. }
  intros r. rewrite in_map_iff. split.
  - intros ([[k0 l0] v0] & <- & Hin).
    apply in_flat_map in Hin as (c & Hc' & Hin).
    apply Hcols in Hc' as (l & vs & y & Hlvs & Hly & Hyr & ->).
    unfold melt_column in Hin. cbn [fst snd] in Hin.
    apply in_map_iff in Hin as ([k1 v1] & Heq & Hin).
    cbn [fst snd] in Heq. injection Heq as -> -> ->.
    rewrite <- filter_mask_map in Hin. fold mask in Hin.
    apply In_combine_filter_mask in Hin as (i & Hm & Hk & Hv).
    assert (Hsel : isin C k0 = true).
    { unfold mask in Hm. rewrite nth_error_map, Hk in Hm.
      cbn in Hm. congruence. }
    assert (Hread : coerce (PyStr l0) = PyInt y).
    { apply Hco; [|assumption]. right. now apply (in_map fst) in Hlvs. }
    exists l0, vs, y, i, k0, v0.
    split; [exact Hlvs|]. split; [exact Hly|]. split; [lia|].
    split; [exact Hk|]. split; [exact Hsel|]. split; [exact Hv|].
    assert (Hv0 : is_int64 v0 = true).
    { eapply Hcell; [exact Hlvs|]. eapply nth_error_In, Hv. }
    cbn [fst snd read_numeric]. rewrite !astype_Int64, Hread.
    destruct v0; try discriminate. reflexivity.
  - intros (l & vs & y & i & k0 & v & Hin & Hly & Hyr & Hk & Hsel & Hv & ->).
    assert (Hread : coerce (PyStr l) = PyInt y).
    { apply Hco; [|assumption]. right. now apply (in_map fst) in Hin. }
    assert (Hv0 : is_int64 v = true).
    { eapply Hcell; [exact Hin|]. eapply nth_error_In, Hv. }
    exists (k0, l, v). split.
    + cbn [fst snd read_numeric]. rewrite !astype_Int64, Hread.
      destruct v; try discriminate. reflexivity.
    + apply in_flat_map. exists (l, filter_mask mask vs). split.
      * apply Hcols. exists l, vs, y. auto.
      * unfold melt_column. cbn [fst snd]. apply in_map_iff.
        exists (k0, v). split; [reflexivity|].
        rewrite <- filter_mask_map. fold mask.
        apply In_combine_filter_mask. exists i.
        split; [|split; assumption].
        unfold mask. rewrite nth_error_map, Hk. cbn. now rewrite Hsel.
Qed.

Lemma records_are_selected_cells_witness :
  exists records,
    update_graph coerce_int_literals scenario_df [2000; 2001; 2002]
                 ["Zimbabwe"%string] [2001; 2002] = Ok records /\
    In (mkTidy (PyStr "Zimbabwe") (PyInt 2001) (PyInt 1500)) records.
Proof.
  destruct (records_are_selected_cells coerce_int_literals scenario_df
              [PyStr "Andorra"; PyStr "Zimbabwe"] [2000; 2001; 2002]
              ["Zimbabwe"%string] 2001 2002)
    as (records & Hr & Hin);
    try reflexivity; try (simpl; tauto); try lia.
  - intros l y Hl. in_cases Hl; vm_compute; intros H; inversion H; reflexivity.
  - exists records. split; [exact Hr|]. apply Hin.
    exists "2001"%string, [PyInt 1100; PyInt 1500], 2001, 1%nat,
      (PyStr "Zimbabwe"), (PyInt 1500).
    repeat split; try reflexivity; try lia. simpl. tauto.
Defined.

(** ** Starting the module *)


